(** * EchoNote: the capture, history and sign-up screens

    A shallow embedding of the event handlers of the React components
    [App] (speech capture and analysis), [HistoryPage] (saved records) and
    [SignupPage] (account creation), with the properties their
    specification states about them and further ones read off the code.

    Every handler is embedded as a program in a small writer/exception
    monad: it emits, in program order, the state-setter calls and the calls
    to the outside world (fetch, store, clipboard, recogniser) it performs,
    and completes normally or abruptly.  The results of awaited external
    calls are supplied by a [World]. *)

From Stdlib Require Import String Ascii.
From stdpp Require Import base list numbers relations.

(** ** JavaScript values shared by both screens *)

Module JS.

(** A JavaScript string is a sequence of UTF-16 code units. *)
Definition jsstring : Type := list N.

(** The code units of an ASCII literal of the source. *)
Fixpoint js (s : string) : jsstring :=
  match s with
  | EmptyString => []
  | String a s' => N_of_ascii a :: js s'
  end.
Arguments js s%_string.

(** The escape [\n] of a string or template literal. *)
Definition LF : N := 10%N.

(** Truthiness of a string: every string but the empty one. *)
Definition truthy (s : jsstring) : bool :=
  match s with
  | [] => false
  | _ :: _ => true
  end.

(** ECMAScript WhiteSpace and LineTerminator code points, the characters
    [String.prototype.trim] strips. *)
Definition isWhiteSpace (c : N) : bool :=
  ((c =? 9) || (c =? 10) || (c =? 11) || (c =? 12) || (c =? 13) || (c =? 32)
   || (c =? 160) || (c =? 5760)
   || ((8192 <=? c) && (c <=? 8202))
   || (c =? 8232) || (c =? 8233) || (c =? 8239) || (c =? 8287)
   || (c =? 12288) || (c =? 65279))%N.

Fixpoint trimStart (s : jsstring) : jsstring :=
  match s with
  | [] => []
  | c :: s' => if isWhiteSpace c then trimStart s' else s
  end.

Definition trimEnd (s : jsstring) : jsstring :=
  reverse (trimStart (reverse s)).

Definition trim (s : jsstring) : jsstring := trimEnd (trimStart s).

(** Empty or made of white space only. *)
Definition blank (s : jsstring) : bool := forallb isWhiteSpace s.

(** [v || d] where [v] is a possibly undefined string. *)
Definition orElse (v : option jsstring) (d : jsstring) : jsstring :=
  match v with
  | Some s => if truthy s then s else d
  | None => d
  end.

(** A thrown value, as far as a [catch] clause of the source looks at it:
    [err instanceof Error] and, if so, [err.message]. *)
Inductive Thrown : Type :=
| ErrorObject (message : jsstring)
| NotAnError.

(** [err instanceof Error ? err.message : fallback] *)
Definition messageOr (err : Thrown) (fallback : jsstring) : jsstring :=
  match err with
  | ErrorObject m => m
  | NotAnError => fallback
  end.

(** How a statement, or an awaited promise, completes. *)
Inductive Completion (A : Type) : Type :=
| Normal (a : A)
| Abrupt (e : Thrown).
Arguments Normal {A} a.
Arguments Abrupt {A} e.

(** A handler run: the actions performed so far, in order, and how the
    run completed. *)
Definition Handler (Act A : Type) : Type := list Act * Completion A.

Section Handler.
Context {Act : Type}.

Definition ret {A} (a : A) : Handler Act A := ([], Normal a).

Definition bind {A B} (m : Handler Act A) (k : A → Handler Act B)
  : Handler Act B :=
  match m with
  | (t, Normal a) => let '(t', r) := k a in (t ++ t', r)
  | (t, Abrupt e) => (t, Abrupt e)
  end.

(** One setter call or one fire-and-forget external call. *)
Definition emit (a : Act) : Handler Act unit := ([a], Normal tt).

(** [throw e] *)
Definition throw {A} (e : Thrown) : Handler Act A := ([], Abrupt e).

(** [await p]: the call is issued, then its settled result is used. *)
Definition await {A} (call : Act) (settled : Completion A) : Handler Act A :=
  ([call], settled).

(** A synchronous call to the outside, which returns or throws. *)
Definition call {A} (invoked : Act) (result : Completion A) : Handler Act A :=
  ([invoked], result).

(** [try { body } catch (err) { handler err }] *)
Definition tryCatch {A} (body : Handler Act A) (handler : Thrown → Handler Act A)
  : Handler Act A :=
  match body with
  | (t, Normal a) => (t, Normal a)
  | (t, Abrupt e) => let '(t', r) := handler e in (t ++ t', r)
  end.

(** [try { body } finally { fin }]: [fin] always runs; when it completes
    normally the completion of [body] stands. *)
Definition tryFinally {A} (body : Handler Act A) (fin : Handler Act unit)
  : Handler Act A :=
  let '(t, r) := body in
  match fin with
  | (t', Normal _) => (t ++ t', r)
  | (t', Abrupt e) => (t ++ t', Abrupt e)
  end.

(** The settled result of a promise that involves no further call
    (reading the body of a response already received). *)
Definition settle {A} (settled : Completion A) : Handler Act A :=
  ([], settled).

Definition trace {A} (m : Handler Act A) : list Act := m.1.
Definition completion {A} (m : Handler Act A) : Completion A := m.2.
End Handler.

(** stdpp's monad notations [x ← m; k] and [m;; k] for handlers. *)
#[export] Instance handler_ret {Act} : MRet (Handler Act) := @ret Act.
#[export] Instance handler_bind {Act} : MBind (Handler Act) :=
  λ A B k m, bind m k.

End JS.

(** ** The capture screen: component [App] *)

Module App.
Import JS.

(** *** Recognition events *)

Record SpeechRecognitionAlternative : Type :=
  { alt_transcript : jsstring }.

(** [result.isFinal] and the indexed alternatives [result[0]], ... *)
Record SpeechRecognitionResult : Type :=
  { isFinal : bool;
    alternatives : list SpeechRecognitionAlternative }.

Record SpeechRecognitionEvent : Type :=
  { results : list SpeechRecognitionResult;
    resultIndex : nat }.

Record SpeechRecognitionErrorEvent : Type :=
  { event_error : jsstring }.

(** *** The generation request and its response *)

Record RequestPart : Type := { part_text : jsstring }.
Record RequestContent : Type := { content_parts : list RequestPart }.
Record RequestBody : Type := { contents : list RequestContent }.

Record Request : Type :=
  { url : jsstring;
    method : jsstring;
    contentType : jsstring;
    body : RequestBody }.

(** The candidate/content/part envelope of a successful response; every
    link the source reads with [?.] may be missing. *)
Record Part : Type := { text : option jsstring }.
Record Content : Type := { parts : option (list Part) }.
Record Candidate : Type := { content : option Content }.
Record GenerateContentResponse : Type :=
  { candidates : option (list Candidate) }.

(** The envelope of a failed response: [errorData.error?.message]. *)
Record ErrorDetail : Type := { message : option jsstring }.
Record ErrorEnvelope : Type := { envelope_error : option ErrorDetail }.

(** A received response: [response.ok] and what [response.json()]
    settles to.  A parsed body is [None] for the JSON value [null], the
    one body on which reading a member throws; any other body is an
    envelope in which the members it lacks are missing. *)
Inductive Response : Type :=
| OkResponse (json : Completion (option GenerateContentResponse))
| NotOkResponse (json : Completion (option ErrorEnvelope)).

(** *** The record store *)

(** The object passed to [insert]. *)
Record SpeechRecordInsert : Type :=
  { row_transcript : jsstring;
    row_gemini_response : jsstring }.

(** What a store query resolves to: the [error] member of the
    [{ data, error }] result, [None] for [null]. *)
Record PostgrestResponse : Type :=
  { response_error : option Thrown }.

(** *** Component state *)

Record AppState : Type :=
  { isListening : bool;
    transcript : jsstring;
    geminiResponse : jsstring;
    isProcessing : bool;
    error : jsstring;
    copied : bool;
    geminiApiKey : jsstring;
    customPrompt : jsstring }.

Definition initial : AppState :=
  {| isListening := false; transcript := []; geminiResponse := [];
     isProcessing := false; error := []; copied := false;
     geminiApiKey := []; customPrompt := [] |}.

(** Callbacks handed to [setTimeout]. *)
Inductive TimerCallback : Type :=
| ResetCopied.                    (* () => setCopied(false) *)

(** What a handler does: setter calls and calls to the outside. *)
Inductive Action : Type :=
| SetIsListening (b : bool)
| SetTranscript (v : jsstring)
| AppendTranscript (v : jsstring)   (* setTranscript(prev => prev + v) *)
| SetGeminiResponse (v : jsstring)
| SetIsProcessing (b : bool)
| SetError (v : jsstring)
| SetCopied (b : bool)
| SetGeminiApiKey (v : jsstring)
| SetCustomPrompt (v : jsstring)
| Fetch (req : Request)
| Insert (row : SpeechRecordInsert)
| ClipboardWriteText (v : jsstring)
| SetTimeout (callback : TimerCallback) (ms : N)
| RecognitionStart
| RecognitionStop.

(** The results of the awaited external calls. *)
Record World : Type :=
  { fetch : Request → Completion Response;
    insert : SpeechRecordInsert → Completion PostgrestResponse;
    writeText : jsstring → Completion unit }.

(** The effect of one action on the component state. *)
Definition apply (s : AppState) (a : Action) : AppState :=
  match a with
  | SetIsListening b =>
      {| isListening := b; transcript := transcript s;
         geminiResponse := geminiResponse s; isProcessing := isProcessing s;
         error := error s; copied := copied s;
         geminiApiKey := geminiApiKey s; customPrompt := customPrompt s |}
  | SetTranscript v =>
      {| isListening := isListening s; transcript := v;
         geminiResponse := geminiResponse s; isProcessing := isProcessing s;
         error := error s; copied := copied s;
         geminiApiKey := geminiApiKey s; customPrompt := customPrompt s |}
  | AppendTranscript v =>
      {| isListening := isListening s; transcript := transcript s ++ v;
         geminiResponse := geminiResponse s; isProcessing := isProcessing s;
         error := error s; copied := copied s;
         geminiApiKey := geminiApiKey s; customPrompt := customPrompt s |}
  | SetGeminiResponse v =>
      {| isListening := isListening s; transcript := transcript s;
         geminiResponse := v; isProcessing := isProcessing s;
         error := error s; copied := copied s;
         geminiApiKey := geminiApiKey s; customPrompt := customPrompt s |}
  | SetIsProcessing b =>
      {| isListening := isListening s; transcript := transcript s;
         geminiResponse := geminiResponse s; isProcessing := b;
         error := error s; copied := copied s;
         geminiApiKey := geminiApiKey s; customPrompt := customPrompt s |}
  | SetError v =>
      {| isListening := isListening s; transcript := transcript s;
         geminiResponse := geminiResponse s; isProcessing := isProcessing s;
         error := v; copied := copied s;
         geminiApiKey := geminiApiKey s; customPrompt := customPrompt s |}
  | SetCopied b =>
      {| isListening := isListening s; transcript := transcript s;
         geminiResponse := geminiResponse s; isProcessing := isProcessing s;
         error := error s; copied := b;
         geminiApiKey := geminiApiKey s; customPrompt := customPrompt s |}
  | SetGeminiApiKey v =>
      {| isListening := isListening s; transcript := transcript s;
         geminiResponse := geminiResponse s; isProcessing := isProcessing s;
         error := error s; copied := copied s;
         geminiApiKey := v; customPrompt := customPrompt s |}
  | SetCustomPrompt v =>
      {| isListening := isListening s; transcript := transcript s;
         geminiResponse := geminiResponse s; isProcessing := isProcessing s;
         error := error s; copied := copied s;
         geminiApiKey := geminiApiKey s; customPrompt := v |}
  | Fetch _ | Insert _ | ClipboardWriteText _ | SetTimeout _ _
  | RecognitionStart | RecognitionStop => s
  end.

(** The state once every setter call of a handler run has been applied. *)
Definition run {A} (s : AppState) (h : Handler Action A) : AppState :=
  foldl apply s (trace h).

(** The calls that leave the browser for the network. *)
Definition isNetworkCall (a : Action) : bool :=
  match a with
  | Fetch _ | Insert _ => true
  | _ => false
  end.

Definition networkCalls {A} (h : Handler Action A) : list Action :=
  List.filter isNetworkCall (trace h).

(** The setter calls, as opposed to calls to the outside. *)
Definition isSetter (a : Action) : bool :=
  match a with
  | Fetch _ | Insert _ | ClipboardWriteText _ | SetTimeout _ _
  | RecognitionStart | RecognitionStop => false
  | _ => true
  end.

(** The text blocks of the generation requests a run sends. *)
Definition requestBodies {A} (h : Handler Action A) : list RequestBody :=
  omap (λ a, match a with Fetch req => Some (body req) | _ => None end)
       (trace h).

(** The rows a run passes to the store's [insert]. *)
Definition insertedRows {A} (h : Handler Action A)
  : list SpeechRecordInsert :=
  omap (λ a, match a with Insert row => Some row | _ => None end)
       (trace h).

(** *** Recognition handlers *)

(** [result[0].transcript]; reading a property of [undefined] throws a
    [TypeError], whose message is the engine's. *)
Definition topTranscript (result : SpeechRecognitionResult)
  : Completion jsstring :=
  match alternatives result !! 0%nat with
  | Some alt => Normal (alt_transcript alt)
  | None =>
      Abrupt (ErrorObject
        (js "Cannot read properties of undefined (reading 'transcript')"))
  end.

(** The loop [for (let i = ...; i < event.results.length; i++)] of
    [onresult], from index [i] on with the text built so far.  [None] is
    running out of fuel. *)
Fixpoint onresult_loop (fuel : nat) (event : SpeechRecognitionEvent)
    (i : nat) (finalTranscript : jsstring) : option (Completion jsstring) :=
  match fuel with
  | O => None
  | S fuel' =>
      if bool_decide (i < length (results event)) then
        match results event !! i with
        | Some result =>
            if isFinal result then
              match topTranscript result with
              | Normal t =>
                  onresult_loop fuel' event (S i)
                    (finalTranscript ++ t ++ js " ")
              | Abrupt e => Some (Abrupt e)
              end
            else onresult_loop fuel' event (S i) finalTranscript
        | None => Some (Normal finalTranscript)
        end
      else Some (Normal finalTranscript)
  end.

(** [recognition.onresult]; the fuel given covers every index of the
    results collection (lemma [onresult_loop_fuel]). *)
Definition onresult (event : SpeechRecognitionEvent) : Handler Action unit :=
  match onresult_loop (S (length (results event))) event
          (resultIndex event) [] with
  | Some scanned =>
      finalTranscript ← settle scanned;
      if truthy finalTranscript
      then emit (AppendTranscript finalTranscript)
      else mret tt
  | None => mret tt
  end.

(** [recognition.onerror] *)
Definition onerror (event : SpeechRecognitionErrorEvent)
  : Handler Action unit :=
  emit (SetError (js "Speech recognition error: " ++ event_error event));;
  emit (SetIsListening false).

(** [recognition.onend] *)
Definition onend : Handler Action unit :=
  emit (SetIsListening false).

(** [toggleListening]; [hasRecognition] is [recognitionRef.current]
    being set, [started] is how the recogniser's [start()] completes (it
    throws when the recogniser is already started). *)
Definition toggleListening (hasRecognition : bool) (started : Completion unit)
    (s : AppState) : Handler Action unit :=
  if negb hasRecognition then mret tt
  else if isListening s then
    emit RecognitionStop;;
    emit (SetIsListening false)
  else
    emit (SetError []);;
    call RecognitionStart started;;
    emit (SetIsListening true).

(** *** Analysis *)

Definition endpoint : jsstring :=
  js "https://generativelanguage.googleapis.com/v1beta/models/gemini-2.5-flash:generateContent?key=".

Definition defaultInstruction : jsstring :=
  js "Please analyze and improve the following text. Provide a summary, correct any grammar issues, and suggest improvements:"
  ++ [LF; LF].

(** The [text] member of the one part of the request body. *)
Definition requestText (customPrompt transcript : jsstring) : jsstring :=
  if truthy (trim customPrompt)
  then customPrompt ++ [LF; LF] ++ transcript
  else defaultInstruction ++ transcript.

(** [{ contents: [{ parts: [{ text }] }] }] *)
Definition oneTextBlock (text : jsstring) : RequestBody :=
  {| contents := [ {| content_parts := [ {| part_text := text |} ] |} ] |}.

Definition generationRequest (geminiApiKey customPrompt transcript : jsstring)
  : Request :=
  {| url := endpoint ++ geminiApiKey;
     method := js "POST";
     contentType := js "application/json";
     body := oneTextBlock (requestText customPrompt transcript) |}.

(** [data.candidates?.[0]?.content?.parts?.[0]?.text] *)
Definition candidateText (data : GenerateContentResponse)
  : option jsstring :=
  cs ← candidates data;
  c ← cs !! 0%nat;
  ct ← content c;
  ps ← parts ct;
  p ← ps !! 0%nat;
  text p.

Definition generatedTextOf (data : GenerateContentResponse) : jsstring :=
  orElse (candidateText data) (js "No response generated").

(** The [TypeError] of reading a member of [null]; its message is the
    engine's. *)
Definition nullRead (member : jsstring) : Thrown :=
  ErrorObject (js "Cannot read properties of null (reading '"
               ++ member ++ js "')").

(** [errorData.error?.message || 'Failed to process with Gemini API'] *)
Definition errorMessageOf (errorData : ErrorEnvelope) : jsstring :=
  orElse (envelope_error errorData ≫= message)
         (js "Failed to process with Gemini API").

(** [processWithGemini], run from a render that showed state [s]. *)
Definition processWithGemini (w : World) (s : AppState)
  : Handler Action unit :=
  if negb (truthy (trim (transcript s))) then
    emit (SetError (js "Please record some speech first"))
  else if negb (truthy (trim (geminiApiKey s))) then
    emit (SetError (js "Please enter your Gemini API key"))
  else
    emit (SetIsProcessing true);;
    emit (SetError []);;
    emit (SetGeminiResponse []);;
    tryFinally
      (tryCatch
         (let req :=
            generationRequest (geminiApiKey s) (customPrompt s)
              (transcript s) in
          response ← await (Fetch req) (fetch w req);
          match response with
          | NotOkResponse json =>
              parsed ← settle json;
              match parsed with
              | None => throw (nullRead (js "error"))
              | Some errorData =>
                  throw (ErrorObject (errorMessageOf errorData))
              end
          | OkResponse json =>
              parsed ← settle json;
              match parsed with
              | None => throw (nullRead (js "candidates"))
              | Some data =>
                  let generatedText := generatedTextOf data in
                  emit (SetGeminiResponse generatedText);;
                  let row :=
                    {| row_transcript := transcript s;
                       row_gemini_response := generatedText |} in
                  _ ← await (Insert row) (insert w row);
                  mret tt
              end
          end)
         (λ err, emit (SetError (messageOr err (js "An error occurred")))))
      (emit (SetIsProcessing false)).

(** [clearAll] *)
Definition clearAll : Handler Action unit :=
  emit (SetTranscript []);;
  emit (SetGeminiResponse []);;
  emit (SetError []);;
  emit (SetCopied false);;
  emit (SetCustomPrompt []).

(** [copyToClipboard] *)
Definition copyToClipboard (w : World) (text : jsstring)
  : Handler Action unit :=
  tryCatch
    (await (ClipboardWriteText text) (writeText w text);;
     emit (SetCopied true);;
     emit (SetTimeout ResetCopied 2000))
    (λ _, emit (SetError (js "Failed to copy to clipboard"))).

Definition runTimer (callback : TimerCallback) : Handler Action unit :=
  match callback with
  | ResetCopied => emit (SetCopied false)
  end.

(** *** What is rendered *)

(** The parts of the rendered screen that depend on the state. *)
Record View : Type :=
  { keyInput : jsstring;                  (* value of the API key input *)
    micActive : bool;                     (* MicOff icon, red button *)
    recordingIndicator : bool;            (* "Recording in progress..." *)
    transcriptInput : jsstring;
    promptInput : jsstring;
    analyzeDisabled : bool;
    analyzeBusy : bool;                   (* spinner and "Processing..." *)
    copyButton : option bool;             (* present; shows the check mark *)
    responsePanel : option jsstring;      (* [None]: the waiting placeholder *)
    errorPanel : option jsstring }.

Definition render (s : AppState) : View :=
  {| keyInput := geminiApiKey s;
     micActive := isListening s;
     recordingIndicator := isListening s;
     transcriptInput := transcript s;
     promptInput := customPrompt s;
     analyzeDisabled := isProcessing s || negb (truthy (trim (transcript s)));
     analyzeBusy := isProcessing s;
     copyButton := if truthy (geminiResponse s) then Some (copied s) else None;
     responsePanel :=
       if truthy (geminiResponse s) then Some (geminiResponse s) else None;
     errorPanel := if truthy (error s) then Some (error s) else None |}.

(** The [onChange] handlers of the three inputs. *)
Definition onKeyChange (value : jsstring) : Handler Action unit :=
  emit (SetGeminiApiKey value).

Definition onTranscriptChange (value : jsstring) : Handler Action unit :=
  emit (SetTranscript value).

Definition onPromptChange (value : jsstring) : Handler Action unit :=
  emit (SetCustomPrompt value).

(** A click on "Analyze with AI": a disabled button fires no handler. *)
Definition clickAnalyze (w : World) (s : AppState) : Handler Action unit :=
  if analyzeDisabled (render s) then mret tt else processWithGemini w s.

(** A click on the copy button, which exists only next to a response. *)
Definition clickCopy (w : World) (s : AppState) : Handler Action unit :=
  match copyButton (render s) with
  | Some _ => copyToClipboard w (geminiResponse s)
  | None => mret tt
  end.

(** *** The transcript as the specification words it *)

(** The entries from the event's start index to the end of the results
    collection. *)
Definition scanned (event : SpeechRecognitionEvent)
  : list SpeechRecognitionResult :=
  drop (resultIndex event) (results event).

(** The top transcript candidate of an entry. *)
Definition topCandidate (result : SpeechRecognitionResult) : jsstring :=
  match alternatives result with
  | alt :: _ => alt_transcript alt
  | [] => []
  end.

(** The top candidates of the scanned entries marked final, in order,
    each followed by one space. *)
Definition spec_finalText (event : SpeechRecognitionEvent) : jsstring :=
  concat (map (λ result, topCandidate result ++ js " ")
              (List.filter isFinal (scanned event))).

(** Every scanned entry marked final has a top candidate. *)
Definition wellFormed (event : SpeechRecognitionEvent) : Prop :=
  Forall (λ result, isFinal result = true → alternatives result ≠ [])
         (scanned event).

(** The state after a sequence of recognition result events. *)
Definition afterResults (s : AppState) (events : list SpeechRecognitionEvent)
  : AppState :=
  foldl (λ s event, run s (onresult event)) s events.

End App.

(** ** The history screen: component [HistoryPage] *)

Module History.
Import JS.

Record SpeechRecord : Type :=
  { id : jsstring;
    transcript : jsstring;
    gemini_response : jsstring;
    created_at : jsstring;
    title : option jsstring }.

Record State : Type :=
  { records : list SpeechRecord;
    isLoading : bool;
    error : jsstring;
    copied : option jsstring;
    selectedRecord : option SpeechRecord }.

Definition initial : State :=
  {| records := []; isLoading := true; error := []; copied := None;
     selectedRecord := None |}.

(** What the store's [select] resolves to: [{ data, error }]. *)
Record SelectResponse : Type :=
  { data : option (list SpeechRecord);
    select_error : option Thrown }.

(** What the store's [delete] resolves to: the [error] member. *)
Record DeleteResponse : Type :=
  { delete_error : option Thrown }.

Inductive TimerCallback : Type :=
| ResetCopied.                    (* () => setCopied(null) *)

Inductive Action : Type :=
| SetRecords (v : list SpeechRecord)
| SetIsLoading (b : bool)
| SetError (v : jsstring)
| SetCopied (v : option jsstring)
| SetSelectedRecord (v : option SpeechRecord)
| Select                              (* from(...).select('*').order(...) *)
| Delete (rid : jsstring)             (* from(...).delete().eq('id', rid) *)
| ClipboardWriteText (v : jsstring)
| SetTimeout (callback : TimerCallback) (ms : N).

Record World : Type :=
  { select : Completion SelectResponse;
    delete : jsstring → Completion DeleteResponse;
    writeText : jsstring → Completion unit }.

Definition apply (s : State) (a : Action) : State :=
  match a with
  | SetRecords v =>
      {| records := v; isLoading := isLoading s; error := error s;
         copied := copied s; selectedRecord := selectedRecord s |}
  | SetIsLoading b =>
      {| records := records s; isLoading := b; error := error s;
         copied := copied s; selectedRecord := selectedRecord s |}
  | SetError v =>
      {| records := records s; isLoading := isLoading s; error := v;
         copied := copied s; selectedRecord := selectedRecord s |}
  | SetCopied v =>
      {| records := records s; isLoading := isLoading s; error := error s;
         copied := v; selectedRecord := selectedRecord s |}
  | SetSelectedRecord v =>
      {| records := records s; isLoading := isLoading s; error := error s;
         copied := copied s; selectedRecord := v |}
  | Select | Delete _ | ClipboardWriteText _ | SetTimeout _ _ => s
  end.

Definition run {A} (s : State) (h : Handler Action A) : State :=
  foldl apply s (trace h).

(** *** Handlers *)

(** [fetchRecords] *)
Definition fetchRecords (w : World) : Handler Action unit :=
  tryFinally
    (tryCatch
       (emit (SetIsLoading true);;
        response ← await Select (select w);
        match select_error response with
        | Some fetchError => throw fetchError
        | None => emit (SetRecords (default [] (data response)))
        end)
       (λ err, emit (SetError (messageOr err (js "Failed to load history")))))
    (emit (SetIsLoading false)).

(** [selectedRecord?.id === rid] *)
Definition isSelected (s : State) (rid : jsstring) : bool :=
  match selectedRecord s with
  | Some r => bool_decide (id r = rid)
  | None => false
  end.

(** [deleteRecord], run from a render that showed state [s]. *)
Definition deleteRecord (w : World) (s : State) (rid : jsstring)
  : Handler Action unit :=
  tryCatch
    (response ← await (Delete rid) (delete w rid);
     match delete_error response with
     | Some deleteError => throw deleteError
     | None =>
         emit (SetRecords
                 (List.filter (λ r, negb (bool_decide (id r = rid)))
                    (records s)));;
         if isSelected s rid then emit (SetSelectedRecord None) else mret tt
     end)
    (λ err, emit (SetError (messageOr err (js "Failed to delete record")))).

(** [copyToClipboard(text, key)] *)
Definition copyToClipboard (w : World) (text key : jsstring)
  : Handler Action unit :=
  tryCatch
    (await (ClipboardWriteText text) (writeText w text);;
     emit (SetCopied (Some key));;
     emit (SetTimeout ResetCopied 2000))
    (λ _, emit (SetError (js "Failed to copy to clipboard"))).

Definition runTimer (callback : TimerCallback) : Handler Action unit :=
  match callback with
  | ResetCopied => emit (SetCopied None)
  end.

(** The inline handlers of the list items and of "Back to History". *)
Definition selectRecord (r : SpeechRecord) : Handler Action unit :=
  emit (SetSelectedRecord (Some r)).

Definition backToHistory : Handler Action unit :=
  emit (SetSelectedRecord None).

(** *** Copy targets *)

Inductive CopyTarget : Type :=
| TranscriptOf (rid : jsstring)
| ResponseOf (rid : jsstring).

#[export] Instance CopyTarget_eq_dec : EqDecision CopyTarget.
Proof. solve_decision. Defined.

(** The key a copy button passes and compares [copied] with. *)
Definition copyKey (t : CopyTarget) : jsstring :=
  match t with
  | TranscriptOf rid => js "transcript-" ++ rid
  | ResponseOf rid => js "response-" ++ rid
  end.

(** [copied === key]: the button of target [t] shows the check mark. *)
Definition confirmed (s : State) (t : CopyTarget) : bool :=
  bool_decide (copied s = Some (copyKey t)).

(** The click handlers of the two copy buttons of the detail view. *)
Definition copyTranscript (w : World) (r : SpeechRecord)
  : Handler Action unit :=
  copyToClipboard w (transcript r) (copyKey (TranscriptOf (id r))).

Definition copyResponse (w : World) (r : SpeechRecord)
  : Handler Action unit :=
  copyToClipboard w (gemini_response r) (copyKey (ResponseOf (id r))).

(** *** What is rendered *)

Inductive ListBody : Type :=
| LoadingIndicator
| EmptyMessage
| RecordGrid (rs : list SpeechRecord).

Inductive View : Type :=
| DetailView (r : SpeechRecord) (transcriptCopied responseCopied : bool)
| ListView (errorDisplay : option jsstring) (body : ListBody).

Definition render (s : State) : View :=
  match selectedRecord s with
  | Some r =>
      DetailView r (confirmed s (TranscriptOf (id r)))
                   (confirmed s (ResponseOf (id r)))
  | None =>
      ListView
        (if truthy (error s) then Some (error s) else None)
        (if isLoading s then LoadingIndicator
         else if bool_decide (length (records s) = 0%nat) then EmptyMessage
         else RecordGrid (records s))
  end.

Definition showsLoading (v : View) : bool :=
  match v with
  | ListView _ LoadingIndicator => true
  | _ => false
  end.

Definition showsEmpty (v : View) : bool :=
  match v with
  | ListView _ EmptyMessage => true
  | _ => false
  end.

Definition showsError (v : View) : bool :=
  match v with
  | ListView (Some _) _ => true
  | _ => false
  end.

(** *** The screen over time

    Every handler of this component awaits at most one external call.
    The setter calls before the call take effect when the handler is
    started; those after it form a continuation that runs, in one piece,
    when the call has settled, interleaved arbitrarily with other
    handlers and continuations. *)

Definition isCall (a : Action) : bool :=
  match a with
  | Select | Delete _ | ClipboardWriteText _ => true
  | _ => false
  end.

(** A run up to and including its awaited call, and the rest of it. *)
Fixpoint splitAtCall (t : list Action) : list Action * list Action :=
  match t with
  | [] => ([], [])
  | a :: t' =>
      if isCall a then ([a], t')
      else let '(pre, post) := splitAtCall t' in (a :: pre, post)
  end.

Record System : Type :=
  { ui : State;
    pending : list (list Action) }.

(** One action: a setter changes the state, [setTimeout] registers its
    callback as a continuation, a call changes nothing here. *)
Definition exec (sys : System) (a : Action) : System :=
  match a with
  | SetTimeout callback _ =>
      {| ui := ui sys;
         pending := pending sys ++ [trace (runTimer callback)] |}
  | _ => {| ui := apply (ui sys) a; pending := pending sys |}
  end.

Definition start {A} (sys : System) (h : Handler Action A) : System :=
  let '(pre, post) := splitAtCall (trace h) in
  let sys' := foldl exec sys pre in
  match post with
  | [] => sys'
  | _ :: _ => {| ui := ui sys'; pending := pending sys' ++ [post] |}
  end.

(** The mount effect: [fetchRecords()] from the initial state. *)
Definition mount (w : World) : System :=
  start {| ui := initial; pending := [] |} (fetchRecords w).

(** A user can only use a control that is rendered; a handler closes
    over the state of the render it was created in. *)
Inductive step : System → System → Prop :=
| step_select sys e rs r :
    render (ui sys) = ListView e (RecordGrid rs) →
    r ∈ rs →
    step sys (start sys (selectRecord r))
| step_delete_item sys w e rs r :
    render (ui sys) = ListView e (RecordGrid rs) →
    r ∈ rs →
    step sys (start sys (deleteRecord w (ui sys) (id r)))
| step_back sys r tc rc :
    render (ui sys) = DetailView r tc rc →
    step sys (start sys backToHistory)
| step_delete_detail sys w r tc rc :
    render (ui sys) = DetailView r tc rc →
    step sys (start sys (deleteRecord w (ui sys) (id r)))
| step_copy_transcript sys w r tc rc :
    render (ui sys) = DetailView r tc rc →
    step sys (start sys (copyTranscript w r))
| step_copy_response sys w r tc rc :
    render (ui sys) = DetailView r tc rc →
    step sys (start sys (copyResponse w r))
| step_resume sys before k after :
    pending sys = before ++ k :: after →
    step sys (foldl exec {| ui := ui sys; pending := before ++ after |} k).

Inductive reachable : System → Prop :=
| reachable_mount w : reachable (mount w)
| reachable_step sys sys' : reachable sys → step sys sys' → reachable sys'.

(** The records the fetch issued on mount puts on the screen. *)
Definition fetched (w : World) : list SpeechRecord :=
  match select w with
  | Normal response =>
      match select_error response with
      | None => default [] (data response)
      | Some _ => []
      end
  | Abrupt _ => []
  end.

(** [record.title || 'Untitled Recording'] of a list item and
    [selectedRecord.title || 'Untitled Record'] of the detail view. *)
Definition itemTitle (r : SpeechRecord) : jsstring :=
  orElse (title r) (js "Untitled Recording").

Definition detailTitle (r : SpeechRecord) : jsstring :=
  orElse (title r) (js "Untitled Record").

(** An action that puts on the screen only what is among [known]: a list
    that is a sublist of it, a selection that is one of its records. *)
Definition fromStore (known : list SpeechRecord) (a : Action) : Prop :=
  match a with
  | SetRecords v => v `sublist_of` known
  | SetSelectedRecord (Some r) => r ∈ known
  | _ => True
  end.

(** The screen shows, and pending work will show, only what is among
    [known]. *)
Definition showsOnly (known : list SpeechRecord) (sys : System) : Prop :=
  records (ui sys) `sublist_of` known
  ∧ (∀ r, selectedRecord (ui sys) = Some r → r ∈ known)
  ∧ Forall (Forall (fromStore known)) (pending sys).

(** *** The loading flag over time *)

(** Actions other than [setIsLoading(true)]. *)
Definition neverStartsLoading (a : Action) : bool :=
  match a with
  | SetIsLoading true => false
  | _ => true
  end.

(** Actions other than [setIsLoading]. *)
Definition leavesLoading (a : Action) : bool :=
  match a with
  | SetIsLoading _ => false
  | _ => true
  end.

(** A continuation whose last action is [setIsLoading(false)]. *)
Definition endsLoading (k : list Action) : Prop :=
  ∃ k', k = k' ++ [SetIsLoading false].

(** While the screen is loading, no error is set, no record is open and
    the only work pending ends the loading; no pending work ever turns
    the loading on again. *)
Definition loadingInvariant (sys : System) : Prop :=
  Forall (λ k, forallb neverStartsLoading k = true) (pending sys)
  ∧ (isLoading (ui sys) = true →
     error (ui sys) = []
     ∧ selectedRecord (ui sys) = None
     ∧ Forall endsLoading (pending sys)).

End History.

(** ** The sign-up screen: component [SignupPage] *)

Module Signup.
Import JS.

Record State : Type :=
  { email : jsstring;
    password : jsstring;
    confirmPassword : jsstring;
    error : jsstring;
    success : jsstring;
    isLoading : bool;
    showPassword : bool;
    showConfirmPassword : bool }.

Definition initial : State :=
  {| email := []; password := []; confirmPassword := []; error := [];
     success := []; isLoading := false; showPassword := false;
     showConfirmPassword := false |}.

Inductive TimerCallback : Type :=
| SwitchToLogin.                    (* () => { onSwitchToLogin(); } *)

Inductive Action : Type :=
| SetEmail (v : jsstring)
| SetPassword (v : jsstring)
| SetConfirmPassword (v : jsstring)
| SetError (v : jsstring)
| SetSuccess (v : jsstring)
| SetIsLoading (b : bool)
| SetShowPassword (b : bool)
| SetShowConfirmPassword (b : bool)
| PreventDefault                      (* e.preventDefault() *)
| SignUp (email password : jsstring)  (* signUp(email, password) *)
| SetTimeout (callback : TimerCallback) (ms : N)
| OnSwitchToLogin.                    (* the prop onSwitchToLogin() *)

(** [signUp] comes from the authentication context; the world tells how
    the promise it returns settles. *)
Record World : Type :=
  { signUp : jsstring → jsstring → Completion unit }.

Definition apply (s : State) (a : Action) : State :=
  match a with
  | SetEmail v =>
      {| email := v; password := password s;
         confirmPassword := confirmPassword s; error := error s;
         success := success s; isLoading := isLoading s;
         showPassword := showPassword s;
         showConfirmPassword := showConfirmPassword s |}
  | SetPassword v =>
      {| email := email s; password := v;
         confirmPassword := confirmPassword s; error := error s;
         success := success s; isLoading := isLoading s;
         showPassword := showPassword s;
         showConfirmPassword := showConfirmPassword s |}
  | SetConfirmPassword v =>
      {| email := email s; password := password s;
         confirmPassword := v; error := error s;
         success := success s; isLoading := isLoading s;
         showPassword := showPassword s;
         showConfirmPassword := showConfirmPassword s |}
  | SetError v =>
      {| email := email s; password := password s;
         confirmPassword := confirmPassword s; error := v;
         success := success s; isLoading := isLoading s;
         showPassword := showPassword s;
         showConfirmPassword := showConfirmPassword s |}
  | SetSuccess v =>
      {| email := email s; password := password s;
         confirmPassword := confirmPassword s; error := error s;
         success := v; isLoading := isLoading s;
         showPassword := showPassword s;
         showConfirmPassword := showConfirmPassword s |}
  | SetIsLoading b =>
      {| email := email s; password := password s;
         confirmPassword := confirmPassword s; error := error s;
         success := success s; isLoading := b;
         showPassword := showPassword s;
         showConfirmPassword := showConfirmPassword s |}
  | SetShowPassword b =>
      {| email := email s; password := password s;
         confirmPassword := confirmPassword s; error := error s;
         success := success s; isLoading := isLoading s;
         showPassword := b;
         showConfirmPassword := showConfirmPassword s |}
  | SetShowConfirmPassword b =>
      {| email := email s; password := password s;
         confirmPassword := confirmPassword s; error := error s;
         success := success s; isLoading := isLoading s;
         showPassword := showPassword s;
         showConfirmPassword := b |}
  | PreventDefault | SignUp _ _ | SetTimeout _ _ | OnSwitchToLogin => s
  end.

Definition run {A} (s : State) (h : Handler Action A) : State :=
  foldl apply s (trace h).

(** The calls to [signUp] of a run, with their arguments. *)
Definition signUps {A} (h : Handler Action A) : list (jsstring * jsstring) :=
  omap (λ a, match a with SignUp e p => Some (e, p) | _ => None end)
       (trace h).

(** The timers a run starts. *)
Definition timers {A} (h : Handler Action A) : list (TimerCallback * N) :=
  omap (λ a, match a with SetTimeout c ms => Some (c, ms) | _ => None end)
       (trace h).

(** [handleSignup], run from a render that showed state [s].  Each
    [return] of the [try] block ends the block, after which [finally]
    runs; the checks are therefore nested here. *)
Definition handleSignup (w : World) (s : State) : Handler Action unit :=
  emit PreventDefault;;
  emit (SetError []);;
  emit (SetSuccess []);;
  emit (SetIsLoading true);;
  tryFinally
    (tryCatch
       (if negb (truthy (trim (email s)))
           || negb (truthy (trim (password s)))
           || negb (truthy (trim (confirmPassword s)))
        then emit (SetError (js "All fields are required"))
        else if negb (bool_decide (password s = confirmPassword s))
        then emit (SetError (js "Passwords do not match"))
        else if bool_decide (length (password s) < 6)
        then emit (SetError (js "Password must be at least 6 characters"))
        else
          await (SignUp (email s) (password s))
                (signUp w (email s) (password s));;
          emit (SetSuccess (js "Account created! You can now sign in."));;
          emit (SetEmail []);;
          emit (SetPassword []);;
          emit (SetConfirmPassword []);;
          emit (SetTimeout SwitchToLogin 2000))
       (λ err, emit (SetError (messageOr err (js "Signup failed")))))
    (emit (SetIsLoading false)).

Definition runTimer (callback : TimerCallback) : Handler Action unit :=
  match callback with
  | SwitchToLogin => emit OnSwitchToLogin
  end.

(** The [onClick] handlers of the two eye buttons. *)
Definition toggleShowPassword (s : State) : Handler Action unit :=
  emit (SetShowPassword (negb (showPassword s))).

Definition toggleShowConfirmPassword (s : State) : Handler Action unit :=
  emit (SetShowConfirmPassword (negb (showConfirmPassword s))).

(** The fields pass the three checks of [handleSignup]. *)
Definition valid (s : State) : bool :=
  negb (blank (email s)) && negb (blank (password s))
  && negb (blank (confirmPassword s))
  && bool_decide (password s = confirmPassword s)
  && bool_decide (6 ≤ length (password s)).

(** The parts of the rendered form that depend on the state. *)
Record View : Type :=
  { passwordMasked : bool;            (* type="password" *)
    confirmMasked : bool;
    errorPanel : option jsstring;
    successPanel : option jsstring;
    submitDisabled : bool }.

Definition render (s : State) : View :=
  {| passwordMasked := negb (showPassword s);
     confirmMasked := negb (showConfirmPassword s);
     errorPanel := if truthy (error s) then Some (error s) else None;
     successPanel := if truthy (success s) then Some (success s) else None;
     submitDisabled := isLoading s |}.

End Signup.

(** ** Sample inputs *)

Module Examples.
Import JS.

Definition alt (t : jsstring) : App.SpeechRecognitionAlternative :=
  {| App.alt_transcript := t |}.

(** A session of two events: "hello" is final at once while "wor" is
    still interim; then "world" becomes final. *)
Definition event1 : App.SpeechRecognitionEvent :=
  {| App.results :=
       [ {| App.isFinal := true; App.alternatives := [alt (js "hello")] |};
         {| App.isFinal := false; App.alternatives := [alt (js "wor")] |} ];
     App.resultIndex := 0 |}.

Definition event2 : App.SpeechRecognitionEvent :=
  {| App.results :=
       [ {| App.isFinal := true; App.alternatives := [alt (js "hello")] |};
         {| App.isFinal := true; App.alternatives := [alt (js "world")] |} ];
     App.resultIndex := 1 |}.

(** "hello" is final; the final entry after it carries no alternative. *)
Definition eventWithoutAlternative : App.SpeechRecognitionEvent :=
  {| App.results :=
       [ {| App.isFinal := true; App.alternatives := [alt (js "hello")] |};
         {| App.isFinal := true; App.alternatives := [] |} ];
     App.resultIndex := 0 |}.

(** The capture screen with a transcript, a key and a prompt entered. *)
Definition recorded (customPrompt : jsstring) : App.AppState :=
  {| App.isListening := true;
     App.transcript := js "Meet on June 1";
     App.geminiResponse := js "old";
     App.isProcessing := false;
     App.error := [];
     App.copied := true;
     App.geminiApiKey := js "key";
     App.customPrompt := customPrompt |}.

Definition envelope (text : option jsstring) : App.GenerateContentResponse :=
  {| App.candidates :=
       Some [ {| App.content :=
                   Some {| App.parts := Some [ {| App.text := text |} ] |}
              |} ] |}.

(** The endpoint answers with the given text; the store answers with
    the given error, if any. *)
Definition answering (text : option jsstring) (storeError : option Thrown)
  : App.World :=
  {| App.fetch :=
       λ _, Normal (App.OkResponse (Normal (Some (envelope text))));
     App.insert := λ _, Normal {| App.response_error := storeError |};
     App.writeText := λ _, Normal tt |}.

(** The endpoint refuses with status 429 and an error envelope. *)
Definition quotaExceeded : App.World :=
  {| App.fetch :=
       λ _, Normal (App.NotOkResponse (Normal (Some
              {| App.envelope_error :=
                   Some {| App.message := Some (js "Quota exceeded") |} |})));
     App.insert := λ _, Normal {| App.response_error := None |};
     App.writeText := λ _, Abrupt NotAnError |}.

(** The endpoint answers with status 200 and the JSON body [null]. *)
Definition nullBody : App.World :=
  {| App.fetch := λ _, Normal (App.OkResponse (Normal None));
     App.insert := λ _, Normal {| App.response_error := None |};
     App.writeText := λ _, Normal tt |}.

Definition rlsViolation : Thrown :=
  ErrorObject (js "new row violates row-level security policy").

Definition record1 : History.SpeechRecord :=
  {| History.id := js "1";
     History.transcript := js "Meet on June 1";
     History.gemini_response := js "Summary";
     History.created_at := js "2024-06-01T10:00:00Z";
     History.title := None |}.

Definition record2 : History.SpeechRecord :=
  {| History.id := js "2";
     History.transcript := js "Call Ann";
     History.gemini_response := js "Reminder";
     History.created_at := js "2024-05-30T09:00:00Z";
     History.title := None |}.

(** The history screen showing two records, the first one open. *)
Definition browsing : History.State :=
  {| History.records := [record1; record2];
     History.isLoading := false;
     History.error := [];
     History.copied := None;
     History.selectedRecord := Some record1 |}.

(** A store and a clipboard that work. *)
Definition working : History.World :=
  {| History.select :=
       Normal {| History.data := Some [record1; record2];
                 History.select_error := None |};
     History.delete := λ _, Normal {| History.delete_error := None |};
     History.writeText := λ _, Normal tt |}.

(** A store whose every operation reports an error. *)
Definition failing : History.World :=
  {| History.select :=
       Normal {| History.data := None;
                 History.select_error := Some (ErrorObject (js "timeout")) |};
     History.delete :=
       λ _, Normal {| History.delete_error := Some (ErrorObject (js "denied")) |};
     History.writeText := λ _, Abrupt NotAnError |}.

(** The history screen once its fetch has brought the two records. *)
Definition loaded : History.System :=
  foldl History.exec
    {| History.ui := History.ui (History.mount working);
       History.pending := [] |}
    [History.SetRecords [record1; record2]; History.SetIsLoading false].

(** In the list, the delete button of the first record has been clicked;
    the store has not answered yet. *)
Definition deleting : History.System :=
  History.start loaded
    (History.deleteRecord working (History.ui loaded) (History.id record1)).

(** The first record has then been opened. *)
Definition opened : History.System :=
  History.start deleting (History.selectRecord record1).

(** The delete has then settled. *)
Definition staleDetail : History.System :=
  foldl History.exec
    {| History.ui := History.ui opened; History.pending := [] |}
    [History.SetRecords [record2]].

(** The history screen once its failed fetch has settled. *)
Definition afterFailedFetch : History.System :=
  foldl History.exec
    {| History.ui := History.ui (History.mount failing);
       History.pending := [] |}
    [History.SetError (js "timeout"); History.SetIsLoading false].

(** The sign-up form filled in with the given password, twice. *)
Definition applicant (password confirmation : jsstring) : Signup.State :=
  {| Signup.email := js "ann@example.com";
     Signup.password := password;
     Signup.confirmPassword := confirmation;
     Signup.error := js "old error";
     Signup.success := [];
     Signup.isLoading := false;
     Signup.showPassword := true;
     Signup.showConfirmPassword := false |}.

(** An authentication service that accepts, and one that refuses. *)
Definition accepting : Signup.World :=
  {| Signup.signUp := λ _ _, Normal tt |}.

Definition refusing : Signup.World :=
  {| Signup.signUp :=
       λ _ _, Abrupt (ErrorObject (js "User already registered")) |}.

End Examples.

(** * Properties *)

(** ** Strings *)

Section Strings.
Import JS.

Lemma trimStart_nil (s : jsstring) : trimStart s = [] ↔ blank s = true.
Proof.
  induction s as [|c s IH]; simpl; [done|].
  destruct (isWhiteSpace c); simpl; [exact IH|].
  split; discriminate.
Qed.

Lemma trimStart_blank (s : jsstring) :
  blank (trimStart s) = true → trimStart s = [].
Proof.
  induction s as [|c s IH]; simpl; [done|].
  destruct (isWhiteSpace c) eqn:Hc; [exact IH|].
  simpl. rewrite Hc. discriminate.
Qed.

Lemma blank_reverse (s : jsstring) : blank (reverse s) = blank s.
Proof.
  unfold blank. induction s as [|c s IH]; [done|].
  rewrite reverse_cons, forallb_app, IH. simpl.
  rewrite andb_true_r. apply andb_comm.
Qed.

(** [!s.trim()] holds exactly of the blank strings. *)
Lemma trim_nil (s : jsstring) : trim s = [] ↔ blank s = true.
Proof.
  unfold trim, trimEnd. split.
  - intros H. apply trimStart_nil, trimStart_blank.
    rewrite <- blank_reverse. apply trimStart_nil.
    apply (f_equal reverse) in H. by rewrite reverse_involutive in H.
  - intros H. apply trimStart_nil in H. by rewrite H.
Qed.

Lemma truthy_trim (s : jsstring) : truthy (trim s) = negb (blank s).
Proof.
  destruct (blank s) eqn:Hb.
  - apply trim_nil in Hb. by rewrite Hb.
  - destruct (trim s) eqn:Ht; [|done].
    apply trim_nil in Ht. congruence.
Qed.

Lemma js_app (a b : string) : js (a ++ b) = js a ++ js b.
Proof. induction a as [|c a IH]; simpl; [done|]. by rewrite IH. Qed.

End Strings.

(** ** The capture screen *)

Section Capture.
Import JS App.
#[local] Arguments js : simpl never.

Lemma run_ret (s : AppState) : run s (mret tt : Handler Action unit) = s.
Proof. reflexivity. Qed.

(** The index loop visits the entries from [i] on, and the fuel of
    [onresult] is enough for it. *)
Lemma onresult_loop_fuel (event : SpeechRecognitionEvent) (fuel i : nat)
    (finalTranscript : jsstring) :
  length (results event) - i < fuel →
  Forall (λ result, isFinal result = true → alternatives result ≠ [])
         (drop i (results event)) →
  onresult_loop fuel event i finalTranscript
  = Some (Normal
      (finalTranscript
       ++ concat (map (λ result, topCandidate result ++ js " ")
                      (List.filter isFinal (drop i (results event)))))).
Proof.
  revert i finalTranscript.
  induction fuel as [|fuel IH]; intros i ft Hfuel Hwf; [lia|].
  cbn [onresult_loop]. case_bool_decide as Hi.
  - destruct (lookup_lt_is_Some_2 _ _ Hi) as [r Hr].
    rewrite Hr. rewrite (drop_S _ _ _ Hr) in Hwf |- *.
    apply Forall_cons_1 in Hwf as [Hr0 Hwf].
    cbn [List.filter]. destruct (isFinal r) eqn:Hfinal.
    + unfold topTranscript. cbn [map concat]. unfold topCandidate at 1.
      destruct (alternatives r) as [|a rest]; [by destruct Hr0|].
      cbn [lookup list_lookup]. rewrite IH by (done || lia).
      by rewrite <- !app_assoc.
    + by rewrite IH by (done || lia).
  - rewrite drop_ge by lia. cbn. by rewrite app_nil_r.
Qed.

Lemma onresult_transcript (s : AppState) (event : SpeechRecognitionEvent) :
  wellFormed event →
  transcript (run s (onresult event)) = transcript s ++ spec_finalText event.
Proof.
  intros Hwf. unfold onresult.
  rewrite onresult_loop_fuel by (done || lia).
  fold (scanned event). fold (spec_finalText event). simpl.
  destruct (spec_finalText event) as [|c t]; simpl.
  - by rewrite app_nil_r.
  - reflexivity.
Qed.

Lemma spec_finalText_interim (event : SpeechRecognitionEvent) :
  Forall (λ result, isFinal result = false) (scanned event) →
  spec_finalText event = [].
Proof.
  unfold spec_finalText. induction 1 as [|r rs Hr _ IH]; [done|].
  simpl. by rewrite Hr.
Qed.

(** C1. After any sequence of recognition result events, the transcript is
    the previous transcript followed, event by event in arrival order, by
    the top candidate of each entry marked final between the event's start
    index and the end of its results, each followed by one space; events
    whose scanned entries are all interim leave the transcript as it was. *)
Theorem C1_transcript_accumulates
    (s : AppState) (events : list SpeechRecognitionEvent) :
  Forall wellFormed events →
  transcript (afterResults s events)
  = transcript s ++ concat (map spec_finalText events)
  ∧ (Forall (λ event, Forall (λ result, isFinal result = false)
                             (scanned event)) events →
     transcript (afterResults s events) = transcript s).
Proof.
  intros Hwf.
  assert (transcript (afterResults s events)
          = transcript s ++ concat (map spec_finalText events)) as Heq.
  { revert s. induction Hwf as [|event events Hev _ IH]; intros s; simpl.
    - by rewrite app_nil_r.
    - unfold afterResults in IH. rewrite IH, onresult_transcript by done.
      by rewrite app_assoc. }
  split; [exact Heq|].
  intros Hinterim. rewrite Heq.
  assert (concat (map spec_finalText events) = []) as ->.
  { clear Heq Hwf. induction Hinterim as [|event events Hev _ IH]; [done|].
    simpl. by rewrite spec_finalText_interim, IH. }
  by rewrite app_nil_r.
Qed.

Lemma C1_transcript_accumulates_witness :
  transcript (afterResults initial [Examples.event1; Examples.event2])
  = js "hello world ".
Proof.
  refine (eq_trans
    (proj1 (C1_transcript_accumulates initial
              [Examples.event1; Examples.event2] _)) _).
  - repeat constructor; discriminate.
  - reflexivity.
Defined.

(** Past its two guards, [processWithGemini] sends exactly one generation
    request, whatever the world answers. *)
Lemma processWithGemini_requests (w : World) (s : AppState) :
  blank (transcript s) = false →
  blank (geminiApiKey s) = false →
  requestBodies (processWithGemini w s)
  = [oneTextBlock (requestText (customPrompt s) (transcript s))].
Proof.
  intros Ht Hk. unfold processWithGemini.
  rewrite !truthy_trim, Ht, Hk. cbn [negb]. cbv zeta.
  remember (generationRequest _ _ _) as req eqn:Hreq.
  assert (body req
          = oneTextBlock (requestText (customPrompt s) (transcript s)))
    as <- by (by subst req).
  clear Hreq.
  destruct (fetch w req) as [[[[data|]|e]|[[errorData|]|e]]|e];
    try reflexivity.
  unfold requestBodies. cbn.
  destruct (insert w _) as [r|e]; reflexivity.
Qed.

(** The whole run when the endpoint answers with a success envelope. *)
Lemma processWithGemini_ok (w : World) (s : AppState)
    (data : GenerateContentResponse) :
  blank (transcript s) = false →
  blank (geminiApiKey s) = false →
  fetch w (generationRequest (geminiApiKey s) (customPrompt s) (transcript s))
  = Normal (OkResponse (Normal (Some data))) →
  let req :=
    generationRequest (geminiApiKey s) (customPrompt s) (transcript s) in
  let row :=
    {| row_transcript := transcript s;
       row_gemini_response := generatedTextOf data |} in
  processWithGemini w s
  = ([SetIsProcessing true; SetError []; SetGeminiResponse []; Fetch req;
      SetGeminiResponse (generatedTextOf data); Insert row]
     ++ match insert w row with
        | Normal _ => []
        | Abrupt err => [SetError (messageOr err (js "An error occurred"))]
        end
     ++ [SetIsProcessing false],
     Normal tt).
Proof.
  intros Ht Hk Hfetch. unfold processWithGemini.
  rewrite !truthy_trim, Ht, Hk. cbn [negb]. cbv zeta.
  rewrite Hfetch. cbn.
  destruct (insert w _) as [r|e]; reflexivity.
Qed.

(** C2 (amended). The request carries one text block.  It is the custom
    prompt, two line feeds and the transcript, in that order, when the
    custom prompt has a character that is not white space; it is the
    default instruction followed by the transcript when the custom prompt
    is empty or white space only.  "Extract dates" with "Meet on June 1"
    gives "Extract dates\n\nMeet on June 1". *)
Theorem C2_request_text (w : World) (s : AppState) :
  blank (transcript s) = false →
  blank (geminiApiKey s) = false →
  requestBodies (processWithGemini w s)
  = [oneTextBlock (requestText (customPrompt s) (transcript s))]
  ∧ (blank (customPrompt s) = false →
     requestText (customPrompt s) (transcript s)
     = customPrompt s ++ [LF; LF] ++ transcript s)
  ∧ (blank (customPrompt s) = true →
     requestText (customPrompt s) (transcript s)
     = defaultInstruction ++ transcript s)
  ∧ requestText (js "Extract dates") (js "Meet on June 1")
    = js "Extract dates" ++ [LF; LF] ++ js "Meet on June 1".
Proof.
  intros Ht Hk. split; [by apply processWithGemini_requests|].
  unfold requestText. rewrite truthy_trim.
  repeat split; try (by intros ->).
Qed.

Lemma C2_request_text_witness :
  requestBodies
    (processWithGemini (Examples.answering None None)
       (Examples.recorded (js "Extract dates")))
  = [oneTextBlock (js "Extract dates" ++ [LF; LF] ++ js "Meet on June 1")].
Proof.
  exact (proj1 (C2_request_text (Examples.answering None None)
                  (Examples.recorded (js "Extract dates"))
                  eq_refl eq_refl)).
Defined.

(** C2 as stated fails on a custom prompt of one space: a prompt was
    supplied and is not empty, yet the text block is the default
    instruction with the transcript, not the prompt, two line feeds and
    the transcript. *)
Lemma C2_blank_prompt_counterexample :
  let s := Examples.recorded (js " ") in
  transcript s ≠ []
  ∧ customPrompt s ≠ []
  ∧ requestBodies (processWithGemini (Examples.answering None None) s)
    = [oneTextBlock (defaultInstruction ++ transcript s)]
  ∧ requestBodies (processWithGemini (Examples.answering None None) s)
    ≠ [oneTextBlock (customPrompt s ++ [LF; LF] ++ transcript s)].
Proof.
  cbv zeta. split; [discriminate|]. split; [discriminate|].
  split; [reflexivity|]. vm_compute. discriminate.
Qed.

(** C3. With an empty or white-space-only transcript the analyze action
    does nothing but set the error "Please record some speech first"; with
    a transcript that is not blank and an empty or white-space-only API
    key it does nothing but set the error "Please enter your Gemini API
    key".  In both cases no network call is issued. *)
Theorem C3_analyze_guards (w : World) (s : AppState) :
  let h := processWithGemini w s in
  (blank (transcript s) = true →
   trace h = [SetError (js "Please record some speech first")]
   ∧ networkCalls h = []
   ∧ error (run s h) = js "Please record some speech first")
  ∧ (blank (transcript s) = false →
     blank (geminiApiKey s) = true →
     trace h = [SetError (js "Please enter your Gemini API key")]
     ∧ networkCalls h = []
     ∧ error (run s h) = js "Please enter your Gemini API key").
Proof.
  cbv zeta. unfold processWithGemini. rewrite !truthy_trim. split.
  - intros ->. by cbn.
  - intros -> ->. by cbn.
Qed.

Lemma C3_analyze_guards_witness :
  let w := Examples.answering None None in
  (let s := apply (Examples.recorded []) (SetTranscript (js "  ")) in
   networkCalls (processWithGemini w s) = []
   ∧ error (run s (processWithGemini w s))
     = js "Please record some speech first")
  ∧ (let s := apply (Examples.recorded []) (SetGeminiApiKey []) in
     networkCalls (processWithGemini w s) = []
     ∧ error (run s (processWithGemini w s))
       = js "Please enter your Gemini API key").
Proof.
  split.
  - exact (proj2 (proj1 (C3_analyze_guards (Examples.answering None None)
             (apply (Examples.recorded []) (SetTranscript (js "  "))))
             eq_refl)).
  - exact (proj2 (proj2 (C3_analyze_guards (Examples.answering None None)
             (apply (Examples.recorded []) (SetGeminiApiKey [])))
             eq_refl eq_refl)).
Defined.

(** An insert that settles with an [error] member leaves no trace on the
    screen: the result of the awaited call is never looked at. *)
Lemma insert_error_ignored (w : World) (s : AppState)
    (data : GenerateContentResponse) (r : PostgrestResponse) :
  blank (transcript s) = false →
  blank (geminiApiKey s) = false →
  fetch w (generationRequest (geminiApiKey s) (customPrompt s) (transcript s))
  = Normal (OkResponse (Normal (Some data))) →
  insert w {| row_transcript := transcript s;
              row_gemini_response := generatedTextOf data |}
  = Normal r →
  geminiResponse (run s (processWithGemini w s)) = generatedTextOf data
  ∧ error (run s (processWithGemini w s)) = [].
Proof.
  intros Ht Hk Hfetch Hinsert. unfold run.
  rewrite (processWithGemini_ok w s data Ht Hk Hfetch). cbv zeta.
  rewrite Hinsert. by cbn.
Qed.

(** Only an insert whose promise rejects reaches the [catch] clause. *)
Lemma insert_rejection_reported (w : World) (s : AppState)
    (data : GenerateContentResponse) (err : Thrown) :
  blank (transcript s) = false →
  blank (geminiApiKey s) = false →
  fetch w (generationRequest (geminiApiKey s) (customPrompt s) (transcript s))
  = Normal (OkResponse (Normal (Some data))) →
  insert w {| row_transcript := transcript s;
              row_gemini_response := generatedTextOf data |}
  = Abrupt err →
  geminiResponse (run s (processWithGemini w s)) = generatedTextOf data
  ∧ error (run s (processWithGemini w s))
    = messageOr err (js "An error occurred").
Proof.
  intros Ht Hk Hfetch Hinsert. unfold run.
  rewrite (processWithGemini_ok w s data Ht Hk Hfetch). cbv zeta.
  rewrite Hinsert. by cbn.
Qed.

(** C4 (the code at the failing input). The endpoint answers "Summary"
    and the store's insert settles with a row-level-security error: the
    row was passed to the store, the response is displayed, the handler
    completes, and the error message stays empty, so no error is shown. *)
Theorem C4_insert_error_unreported :
  let w := Examples.answering (Some (js "Summary"))
             (Some Examples.rlsViolation) in
  let s := Examples.recorded [] in
  let h := processWithGemini w s in
  insertedRows h
  = [ {| row_transcript := js "Meet on June 1";
         row_gemini_response := js "Summary" |} ]
  ∧ geminiResponse (run s h) = js "Summary"
  ∧ error (run s h) = []
  ∧ completion h = Normal tt.
Proof. vm_compute. done. Qed.

(** C6 (amended). When the endpoint answers with a success status and a
    JSON body other than [null], the displayed response and the
    [gemini_response] passed to the store's insert, next to the unmodified
    transcript, are the same string: the text of the first part of the
    first candidate's content when that text is present and not empty, and
    "No response generated" when it is absent or empty.  The handler
    completes normally. *)
Theorem C6_generated_text (w : World) (s : AppState)
    (data : GenerateContentResponse) :
  blank (transcript s) = false →
  blank (geminiApiKey s) = false →
  fetch w (generationRequest (geminiApiKey s) (customPrompt s) (transcript s))
  = Normal (OkResponse (Normal (Some data))) →
  let h := processWithGemini w s in
  let shown := geminiResponse (run s h) in
  insertedRows h
  = [ {| row_transcript := transcript s; row_gemini_response := shown |} ]
  ∧ (∀ t, candidateText data = Some t → t ≠ [] → shown = t)
  ∧ (candidateText data = None ∨ candidateText data = Some [] →
     shown = js "No response generated")
  ∧ completion h = Normal tt.
Proof.
  intros Ht Hk Hfetch. cbv zeta. unfold run, insertedRows, completion.
  rewrite (processWithGemini_ok w s data Ht Hk Hfetch). cbv zeta.
  assert (∀ t, candidateText data = Some t → t ≠ [] →
               generatedTextOf data = t) as Hpresent.
  { unfold generatedTextOf, orElse. intros t -> Hne. by destruct t. }
  assert (candidateText data = None ∨ candidateText data = Some [] →
          generatedTextOf data = js "No response generated") as Habsent.
  { unfold generatedTextOf, orElse. by intros [-> | ->]. }
  destruct (insert w _) as [r|e]; by cbn.
Qed.

Lemma C6_generated_text_witness :
  let w := Examples.answering (Some (js "Summary: ...")) None in
  let s := Examples.recorded [] in
  insertedRows (processWithGemini w s)
  = [ {| row_transcript := js "Meet on June 1";
         row_gemini_response :=
           geminiResponse (run s (processWithGemini w s)) |} ].
Proof.
  exact (proj1 (C6_generated_text
                  (Examples.answering (Some (js "Summary: ...")) None)
                  (Examples.recorded []) (Examples.envelope _)
                  eq_refl eq_refl eq_refl)).
Defined.

(** C6 as stated fails on an envelope whose first part has the empty
    string as its text: the field is present, yet what is displayed and
    stored is the placeholder and not that text.  It also fails on the
    body [null], where the field is absent: reading [data.candidates]
    throws, so nothing is displayed or stored and an error is shown. *)
Lemma C6_empty_text_counterexample :
  let w := Examples.answering (Some []) None in
  let s := Examples.recorded [] in
  let h := processWithGemini w s in
  let h0 := processWithGemini Examples.nullBody s in
  candidateText (Examples.envelope (Some [])) = Some []
  ∧ geminiResponse (run s h) = js "No response generated"
  ∧ geminiResponse (run s h) ≠ []
  ∧ insertedRows h
    = [ {| row_transcript := js "Meet on June 1";
           row_gemini_response := js "No response generated" |} ]
  ∧ geminiResponse (run s h0) = []
  ∧ insertedRows h0 = []
  ∧ error (run s h0)
    = js "Cannot read properties of null (reading 'candidates')".
Proof.
  cbv zeta. split; [reflexivity|]. split; [reflexivity|].
  split; [vm_compute; discriminate|]. repeat split; reflexivity.
Qed.

(** C8. Clear sets the transcript, the response, the error message and
    the custom prompt to the empty string and the copied flag to false,
    and leaves the listening flag, the processing flag and the API key as
    they were; it performs setter calls only, so it neither stops the
    recogniser nor calls anything else outside. *)
Theorem C8_clear_all (s : AppState) :
  run s clearAll
  = {| isListening := isListening s;
       transcript := [];
       geminiResponse := [];
       isProcessing := isProcessing s;
       error := [];
       copied := false;
       geminiApiKey := geminiApiKey s;
       customPrompt := [] |}
  ∧ Forall (λ a, isSetter a = true) (trace clearAll)
  ∧ (RecognitionStop ∉ trace clearAll)
  ∧ completion clearAll = Normal tt.
Proof.
  split; [reflexivity|]. split; [repeat constructor|].
  split; [|reflexivity].
  cbn. intros Hin.
  repeat (apply elem_of_cons in Hin as [Hin|Hin]; [discriminate|]).
  by apply elem_of_nil in Hin.
Qed.

End Capture.

(** ** The history screen *)

Section HistoryScreen.
Import JS History.
#[local] Arguments js : simpl never.

(** *** Copy confirmations *)

Lemma copyKey_inj (t t' : CopyTarget) : copyKey t = copyKey t' → t = t'.
Proof.
  destruct t as [a|a], t' as [b|b]; unfold copyKey; intros H.
  - by apply app_inv_head in H as ->.
  - vm_compute in H. discriminate.
  - vm_compute in H. discriminate.
  - by apply app_inv_head in H as ->.
Qed.

(** C5 (amended). One slot holds the key of the target copied last.  A
    copy that succeeds on a target shows the confirmation on that target
    and on no other: it never switches another target's confirmation on,
    and it clears the one another target was showing.  A copy that fails
    leaves every confirmation as it was. *)
Theorem C5_copy_confirmation
    (w : World) (s : State) (text : jsstring) (t : CopyTarget) :
  let s' := run s (copyToClipboard w text (copyKey t)) in
  match writeText w text with
  | Normal _ => ∀ t', confirmed s' t' = bool_decide (t' = t)
  | Abrupt _ => ∀ t', confirmed s' t' = confirmed s t'
  end.
Proof.
  cbv zeta. unfold run, copyToClipboard, confirmed.
  destruct (writeText w text) as [[]|e]; cbn.
  - intros t'. apply bool_decide_ext. split.
    + intros [= H]. symmetry. by apply copyKey_inj.
    + by intros ->.
  - done.
Qed.

(** C5 as stated fails: with the transcript of a record just copied, a
    copy of the response of the same record changes the confirmation of
    the transcript, a different target, from shown to not shown. *)
Lemma C5_copy_interference_counterexample :
  let r := Examples.record1 in
  let s1 := run Examples.browsing (copyTranscript Examples.working r) in
  let s2 := run s1 (copyResponse Examples.working r) in
  TranscriptOf (id r) ≠ ResponseOf (id r)
  ∧ confirmed s1 (TranscriptOf (id r)) = true
  ∧ confirmed s2 (TranscriptOf (id r)) = false.
Proof. cbv zeta. split; [discriminate|]. split; reflexivity. Qed.

(** *** Deleting *)

Lemma filter_other_ids (rid : jsstring) (l : list SpeechRecord) :
  rid ∉ id <$> l →
  List.filter (λ r, negb (bool_decide (id r = rid))) l = l.
Proof.
  induction l as [|r l IH]; [done|]. rewrite fmap_cons, not_elem_of_cons.
  intros [Hne Hnotin]. simpl.
  rewrite bool_decide_false by done. simpl. by rewrite IH.
Qed.

Lemma filter_sublist {A} (f : A → bool) (l : list A) :
  List.filter f l `sublist_of` l.
Proof.
  induction l as [|x l IH]; [done|]. simpl.
  destruct (f x); by constructor.
Qed.

(** What a delete that succeeds writes, whatever the state it lands in:
    the list of the render it was clicked in, filtered, and a reset of the
    selection decided on the selection of that render. *)
Lemma deleteRecord_settles (w : World) (s u : State) (rid : jsstring) :
  delete w rid = Normal {| delete_error := None |} →
  let u' := run u (deleteRecord w s rid) in
  records u'
  = List.filter (λ r, negb (bool_decide (id r = rid))) (records s)
  ∧ selectedRecord u' = (if isSelected s rid then None else selectedRecord u)
  ∧ error u' = error u
  ∧ isLoading u' = isLoading u
  ∧ copied u' = copied u.
Proof.
  intros Hdel. cbv zeta. unfold run, deleteRecord. cbn. rewrite Hdel. cbn.
  destruct (isSelected s rid); by cbn.
Qed.

(** X23. When the list and the selection are still those of the render
    the delete was clicked in, a delete that succeeds keeps exactly the
    records whose id is not the deleted one, in their order; with ids that
    are unique this takes the one record of that id out of the list.  If
    the record open in the detail view has that id the selection is reset
    and the list view is rendered, with the remaining records or the
    empty-list message; otherwise the selection stays as it was. *)
Theorem delete_same_render (w : World) (s u : State) (rid : jsstring) :
  delete w rid = Normal {| delete_error := None |} →
  records u = records s →
  selectedRecord u = selectedRecord s →
  let u' := run u (deleteRecord w s rid) in
  (∀ r, r ∈ records u' ↔ r ∈ records u ∧ id r ≠ rid)
  ∧ records u' `sublist_of` records u
  ∧ (∀ before r after,
       records u = before ++ r :: after →
       id r = rid →
       NoDup (id <$> records u) →
       records u' = before ++ after)
  ∧ (isSelected u rid = true →
     selectedRecord u' = None
     ∧ render u'
       = ListView (if truthy (error u) then Some (error u) else None)
           (if isLoading u then LoadingIndicator
            else if bool_decide (length (records u') = 0) then EmptyMessage
            else RecordGrid (records u')))
  ∧ (isSelected u rid = false → selectedRecord u' = selectedRecord u).
Proof.
  intros Hdel Hsame Hsel. cbv zeta.
  destruct (deleteRecord_settles w s u rid Hdel)
    as (Hrecords & Hselected & Herror & Hloading & _).
  assert (isSelected s rid = isSelected u rid) as Hs
    by (unfold isSelected; by rewrite Hsel).
  rewrite Hs in Hselected. unfold render.
  rewrite Herror, Hloading, Hselected, Hrecords, <- Hsame.
  split; [|split; [|split; [|split]]].
  - intros r. rewrite !list_elem_of_In, filter_In.
    rewrite negb_true_iff, bool_decide_eq_false. done.
  - apply filter_sublist.
  - intros before r after Heq Hid. rewrite Heq.
    rewrite fmap_app, fmap_cons, Hid.
    intros [Hbefore [Hdisj Hafter]]%list.NoDup_app.
    apply list.NoDup_cons in Hafter as [Hafter _].
    rewrite List.filter_app. simpl.
    rewrite bool_decide_true by done. simpl.
    rewrite !filter_other_ids; [done|done|].
    intros Hin. apply (Hdisj _ Hin). by left.
  - by intros ->.
  - by intros ->.
Qed.

Lemma delete_same_render_witness :
  let s' := run Examples.browsing
              (deleteRecord Examples.working Examples.browsing (js "1")) in
  records s' = [Examples.record2]
  ∧ render s' = ListView None (RecordGrid [Examples.record2]).
Proof.
  pose proof (delete_same_render Examples.working Examples.browsing
                Examples.browsing (js "1") eq_refl eq_refl eq_refl)
    as (_ & _ & Hone & Hsel & _).
  split.
  - apply (Hone [] Examples.record1 [Examples.record2]); [done|done|].
    apply (bool_decide_unpack _). vm_compute. exact I.
  - exact (proj2 (Hsel eq_refl)).
Defined.

(** C7 (the code at the failing input). The list shows two records; the
    delete button of the first is clicked and, before the store has
    answered, the first record is opened.  The delete then succeeds: its
    handler, created in the list view, sees no record open and leaves the
    selection alone.  The state is reachable, the deleted record is gone
    from the list, and the detail view of the deleted record is still
    what is rendered. *)
Theorem C7_stale_delete_keeps_detail_open :
  reachable Examples.staleDetail
  ∧ delete Examples.working (id Examples.record1)
    = Normal {| delete_error := None |}
  ∧ records (ui Examples.staleDetail) = [Examples.record2]
  ∧ selectedRecord (ui Examples.staleDetail) = Some Examples.record1
  ∧ render (ui Examples.staleDetail)
    = DetailView Examples.record1 false false.
Proof.
  split; [|by repeat split].
  apply (reachable_step Examples.opened).
  - apply (reachable_step Examples.deleting).
    + apply (reachable_step Examples.loaded).
      * apply (reachable_step (mount Examples.working));
          [apply reachable_mount|].
        apply (step_resume (mount Examples.working) []
                 [SetRecords [Examples.record1; Examples.record2];
                  SetIsLoading false] []).
        reflexivity.
      * apply (step_delete_item Examples.loaded Examples.working None
                 [Examples.record1; Examples.record2] Examples.record1);
          [reflexivity|by left].
    + apply (step_select Examples.deleting None
               [Examples.record1; Examples.record2] Examples.record1);
        [reflexivity|by left].
  - apply (step_resume Examples.opened [] [SetRecords [Examples.record2]] []).
    reflexivity.
Qed.



(** *** Display modes *)

Lemma exec_ui (sys : System) (k : list Action) :
  ui (foldl exec sys k) = foldl apply (ui sys) k.
Proof.
  revert sys. induction k as [|a k IH]; intros sys; [done|].
  simpl. rewrite IH. by destruct a.
Qed.

Lemma exec_pending (sys : System) (k : list Action) :
  Forall (λ c, forallb neverStartsLoading c = true) (pending sys) →
  Forall (λ c, forallb neverStartsLoading c = true)
         (pending (foldl exec sys k)).
Proof.
  revert sys. induction k as [|a k IH]; intros sys Hp; [done|].
  simpl. apply IH. destruct a; try done.
  simpl. apply Forall_app. split; [done|].
  destruct callback. by repeat constructor.
Qed.

Lemma leavesLoading_never (a : Action) :
  leavesLoading a = true → neverStartsLoading a = true.
Proof. by destruct a as [| [] | | | | | | |]. Qed.

Lemma stays_loaded (u : State) (k : list Action) :
  forallb neverStartsLoading k = true →
  isLoading u = false →
  isLoading (foldl apply u k) = false.
Proof.
  revert u. induction k as [|a k IH]; intros u Hk Hu; [done|].
  simpl in Hk. apply andb_true_iff in Hk as [Ha Hk].
  simpl. apply IH; [done|]. by destruct a as [| [] | | | | | | |].
Qed.

Lemma endsLoading_loaded (u : State) (k : list Action) :
  endsLoading k → isLoading (foldl apply u k) = false.
Proof. intros [k' ->]. by rewrite foldl_app. Qed.

Lemma splitAtCall_app (t : list Action) :
  (splitAtCall t).1 ++ (splitAtCall t).2 = t.
Proof.
  induction t as [|a t IH]; [done|]. simpl.
  destruct (isCall a); [done|].
  destruct (splitAtCall t) as [pre post]. simpl in *. by rewrite IH.
Qed.

(** A handler that never touches the loading flag, started on a loaded
    screen, leaves it loaded and adds no work that could change that. *)
Lemma start_loaded {A} (sys : System) (h : Handler Action A) :
  forallb leavesLoading (trace h) = true →
  loadingInvariant sys →
  isLoading (ui sys) = false →
  loadingInvariant (start sys h).
Proof.
  intros Hh [Hpending _] Hloaded.
  assert (forallb neverStartsLoading (trace h) = true) as Hn.
  { apply forallb_forall. intros a Ha. apply leavesLoading_never.
    by apply (proj1 (forallb_forall _ _) Hh). }
  unfold start. pose proof (splitAtCall_app (trace h)) as Hsplit.
  destruct (splitAtCall (trace h)) as [pre post]. simpl in Hsplit.
  rewrite <- Hsplit, forallb_app in Hn. apply andb_true_iff in Hn as [Hpre Hpost].
  assert (isLoading (ui (foldl exec sys pre)) = false) as Hui.
  { rewrite exec_ui. by apply stays_loaded. }
  pose proof (exec_pending sys pre Hpending) as Hp.
  destruct post as [|a post]; split; simpl; try done.
  - by rewrite Hui.
  - apply Forall_app. split; [done|]. by repeat constructor.
  - by rewrite Hui.
Qed.

Lemma deleteRecord_leavesLoading (w : World) (s : State) (rid : jsstring) :
  forallb leavesLoading (trace (deleteRecord w s rid)) = true.
Proof.
  unfold deleteRecord. cbn.
  destruct (delete w rid) as [[[e|]]|e]; cbn; try done.
  by destruct (isSelected s rid).
Qed.

Lemma copyToClipboard_leavesLoading (w : World) (text key : jsstring) :
  forallb leavesLoading (trace (copyToClipboard w text key)) = true.
Proof.
  unfold copyToClipboard. cbn. by destruct (writeText w text) as [[]|e].
Qed.

Lemma mount_invariant (w : World) : loadingInvariant (mount w).
Proof.
  unfold mount, start, fetchRecords, loadingInvariant. cbn.
  destruct (select w) as [[d [e|]]|e]; cbn;
    (split; [by repeat constructor|]); intros _;
    (split; [done|]); (split; [done|]);
    repeat constructor; by eexists [_].
Qed.

Lemma render_grid_loaded (s : State) e rs :
  render s = ListView e (RecordGrid rs) → isLoading s = false.
Proof.
  unfold render. destruct (selectedRecord s); [done|].
  by destruct (isLoading s).
Qed.

Lemma render_detail_loaded (sys : System) r tc rc :
  loadingInvariant sys →
  render (ui sys) = DetailView r tc rc →
  isLoading (ui sys) = false.
Proof.
  intros [_ Hinv] Hrender. destruct (isLoading (ui sys)); [|done].
  destruct Hinv as (_ & Hsel & _); [done|].
  unfold render in Hrender. by rewrite Hsel in Hrender.
Qed.

Lemma step_invariant (sys sys' : System) :
  loadingInvariant sys → step sys sys' → loadingInvariant sys'.
Proof.
  intros Hinv Hstep.
  destruct Hstep as [sys e rs r Hr _ | sys w e rs r Hr _ | sys r tc rc Hr
                    | sys w r tc rc Hr | sys w r tc rc Hr | sys w r tc rc Hr
                    | sys before k after Hp].
  - apply start_loaded; [done|done|]. by eapply render_grid_loaded.
  - apply start_loaded; [apply deleteRecord_leavesLoading|done|].
    by eapply render_grid_loaded.
  - apply start_loaded; [done|done|]. by eapply render_detail_loaded.
  - apply start_loaded; [apply deleteRecord_leavesLoading|done|].
    by eapply render_detail_loaded.
  - apply start_loaded; [apply copyToClipboard_leavesLoading|done|].
    by eapply render_detail_loaded.
  - apply start_loaded; [apply copyToClipboard_leavesLoading|done|].
    by eapply render_detail_loaded.
  - destruct Hinv as [Hpending Hloading]. rewrite Hp in Hpending, Hloading.
    apply Forall_app in Hpending as [Hbefore Hk].
    apply Forall_cons_1 in Hk as [Hk Hafter].
    split.
    + apply exec_pending. simpl. by apply Forall_app.
    + rewrite exec_ui. simpl. intros Hl. exfalso.
      destruct (isLoading (ui sys)) eqn:Hui.
      * destruct Hloading as (_ & _ & Hends); [done|].
        apply Forall_app in Hends as [_ Hends].
        apply Forall_cons_1 in Hends as [Hends _].
        by rewrite endsLoading_loaded in Hl.
      * by rewrite stays_loaded in Hl.
Qed.

Lemma reachable_invariant (sys : System) :
  reachable sys → loadingInvariant sys.
Proof.
  induction 1 as [w | sys sys' _ IH Hstep].
  - apply mount_invariant.
  - by eapply step_invariant.
Qed.

(** C9 (amended). In every reachable state the loading indicator is shown
    together with neither the empty-list message nor the error display,
    and the empty-list message is not shown together with the loading
    indicator.  The error display is independent of the empty-list
    message and of the record list: it is shown whenever the error
    message is not empty and no record is open. *)
Theorem C9_display_modes (sys : System) :
  reachable sys →
  let v := render (ui sys) in
  (showsLoading v = true → showsEmpty v = false ∧ showsError v = false)
  ∧ (showsEmpty v = true → showsLoading v = false)
  ∧ (showsError v = true ↔
     selectedRecord (ui sys) = None ∧ error (ui sys) ≠ []).
Proof.
  intros [_ Hinv]%reachable_invariant. cbv zeta. unfold render.
  destruct (selectedRecord (ui sys)) as [r|] eqn:Hsel; simpl.
  - split; [done|]. split; [done|]. split; [done|]. by intros [? _].
  - destruct (isLoading (ui sys)) eqn:Hl; simpl.
    + destruct Hinv as (Herr & _); [done|]. rewrite Herr. simpl.
      split; [done|]. split; [done|]. split; [done|]. by intros [_ ?].
    + destruct (bool_decide _), (error (ui sys)); simpl;
        (split; [done|]); (split; [done|]); split; try done;
        by intros [_ ?].
Qed.

Lemma C9_display_modes_witness :
  let v := render (ui (mount Examples.working)) in
  showsLoading v = true ∧ showsEmpty v = false ∧ showsError v = false.
Proof.
  split; [reflexivity|].
  exact (proj1 (C9_display_modes (mount Examples.working)
                  (reachable_mount Examples.working)) eq_refl).
Defined.

(** C9 as stated fails: once the fetch issued on mount has failed, the
    error display and the empty-list message are shown together. *)
Lemma C9_error_with_empty_counterexample :
  reachable Examples.afterFailedFetch
  ∧ showsError (render (ui Examples.afterFailedFetch)) = true
  ∧ showsEmpty (render (ui Examples.afterFailedFetch)) = true.
Proof.
  split; [|split; reflexivity].
  apply (reachable_step (mount Examples.failing));
    [apply reachable_mount|].
  apply (step_resume (mount Examples.failing) []
           [SetError (js "timeout"); SetIsLoading false] []).
  reflexivity.
Qed.

End HistoryScreen.

(** ** The capture screen, further properties *)

Section CaptureMore.
Import JS App.
#[local] Arguments js : simpl never.

(** *** Recognition *)

(** The loop stops at the first scanned final entry without an
    alternative. *)
Lemma onresult_loop_throws (event : SpeechRecognitionEvent) (fuel i : nat)
    (finalTranscript : jsstring) :
  length (results event) - i < fuel →
  ¬ Forall (λ result, isFinal result = true → alternatives result ≠ [])
           (drop i (results event)) →
  ∃ e, onresult_loop fuel event i finalTranscript = Some (Abrupt e).
Proof.
  revert i finalTranscript.
  induction fuel as [|fuel IH]; intros i ft Hfuel Hbad; [lia|].
  cbn [onresult_loop]. case_bool_decide as Hi.
  - destruct (lookup_lt_is_Some_2 _ _ Hi) as [r Hr].
    rewrite Hr. rewrite (drop_S _ _ _ Hr) in Hbad.
    destruct (isFinal r) eqn:Hfinal.
    + unfold topTranscript. destruct (alternatives r) as [|a rest] eqn:Ha.
      * cbn. eauto.
      * cbn [lookup list_lookup]. apply IH; [lia|].
        intros Hrest. apply Hbad. constructor; [|done].
        rewrite Ha. done.
    + apply IH; [lia|]. intros Hrest. apply Hbad. constructor; [|done].
      rewrite Hfinal. done.
  - rewrite drop_ge in Hbad by lia. by destruct Hbad.
Qed.

Lemma spec_finalText_nil (event : SpeechRecognitionEvent) :
  spec_finalText event = []
  ↔ Forall (λ result, isFinal result = false) (scanned event).
Proof.
  split; [|apply spec_finalText_interim].
  unfold spec_finalText. induction (scanned event) as [|r rs IH]; [done|].
  cbn [List.filter]. destruct (isFinal r) eqn:Hr.
  - cbn [map concat]. intros H.
    apply app_eq_nil in H as [H _]. apply app_eq_nil in H as [_ H].
    discriminate.
  - intros H. constructor; [done|by apply IH].
Qed.

(** X1. Whatever the event, [onresult] calls nothing outside and changes
    nothing but the transcript, which it can only extend. *)
Theorem onresult_only_extends (s : AppState) (event : SpeechRecognitionEvent) :
  let s' := run s (onresult event) in
  transcript s `prefix_of` transcript s'
  ∧ isListening s' = isListening s
  ∧ geminiResponse s' = geminiResponse s
  ∧ isProcessing s' = isProcessing s
  ∧ error s' = error s
  ∧ copied s' = copied s
  ∧ geminiApiKey s' = geminiApiKey s
  ∧ customPrompt s' = customPrompt s
  ∧ Forall (λ a, isSetter a = true) (trace (onresult event)).
Proof.
  cbv zeta. unfold onresult, run.
  destruct (onresult_loop _ _ _ _) as [[ft|e]|]; cbn;
    try (by repeat split; try constructor).
  destruct ft as [|c ft]; cbn.
  - by repeat split; try constructor.
  - repeat split; try done.
    + by eexists.
    + by repeat constructor.
Qed.

(** X2. A well-formed event changes the transcript exactly when one of
    its entries from the start index on is final: then one update appends
    the text of all of them, and even a final entry with an empty text
    adds its space.  An event whose start index is past the end of its
    results does nothing. *)
Theorem onresult_appends_iff_final (event : SpeechRecognitionEvent) :
  wellFormed event →
  (Forall (λ result, isFinal result = false) (scanned event) →
   trace (onresult event) = [])
  ∧ (¬ Forall (λ result, isFinal result = false) (scanned event) →
     trace (onresult event) = [AppendTranscript (spec_finalText event)]
     ∧ spec_finalText event ≠ [])
  ∧ (length (results event) ≤ resultIndex event →
     trace (onresult event) = []).
Proof.
  intros Hwf.
  assert (trace (onresult event)
          = if truthy (spec_finalText event)
            then [AppendTranscript (spec_finalText event)] else [])
    as Htrace.
  { unfold onresult. rewrite onresult_loop_fuel by (done || lia).
    fold (scanned event). fold (spec_finalText event). cbn.
    by destruct (spec_finalText event). }
  rewrite Htrace. split; [|split].
  - intros Hinterim. by rewrite (spec_finalText_interim _ Hinterim).
  - intros Hfinal. destruct (spec_finalText event) eqn:Htext; [|done].
    by apply spec_finalText_nil in Htext.
  - intros Hrange. rewrite spec_finalText_interim; [done|].
    unfold scanned. by rewrite drop_ge.
Qed.

Lemma onresult_appends_iff_final_witness :
  trace (onresult Examples.event2) = [AppendTranscript (js "world ")].
Proof.
  refine (eq_trans
    (proj1 (proj1 (proj2 (onresult_appends_iff_final Examples.event2 _)) _))
    _).
  - repeat constructor; discriminate.
  - intros H. apply Forall_cons_1 in H as [H _]. discriminate.
  - reflexivity.
Defined.

(** X3. An event with a final entry that has no alternative, from the
    start index on, makes the handler throw before it updates anything:
    the text of the final entries scanned before it is not appended. *)
Theorem onresult_throws_appends_nothing
    (s : AppState) (event : SpeechRecognitionEvent) :
  ¬ wellFormed event →
  trace (onresult event) = []
  ∧ run s (onresult event) = s
  ∧ ∃ e, completion (onresult event) = Abrupt e.
Proof.
  intros Hbad. unfold run, onresult, completion.
  destruct (onresult_loop_throws event (S (length (results event)))
              (resultIndex event) []) as [e He]; [lia|done|].
  rewrite He. cbn. eauto.
Qed.

Lemma onresult_throws_appends_nothing_witness :
  transcript (run App.initial (onresult Examples.eventWithoutAlternative))
  = [].
Proof.
  refine (f_equal transcript
    (proj1 (proj2 (onresult_throws_appends_nothing App.initial
                     Examples.eventWithoutAlternative _)))).
  intros H. apply Forall_cons_1 in H as [_ H].
  apply Forall_cons_1 in H as [H _]. by apply H.
Defined.

(** The listening flag after the recogniser's callbacks and the toggle. *)
Lemma toggle_frame (hasRecognition : bool) (started : Completion unit)
    (s : AppState) :
  let s' := run s (toggleListening hasRecognition started s) in
  transcript s' = transcript s
  ∧ geminiResponse s' = geminiResponse s
  ∧ isProcessing s' = isProcessing s
  ∧ copied s' = copied s
  ∧ geminiApiKey s' = geminiApiKey s
  ∧ customPrompt s' = customPrompt s.
Proof.
  cbv zeta. unfold run, toggleListening.
  destruct hasRecognition, (isListening s), started as [[]|e]; by cbn.
Qed.

(** X4. With a recogniser whose [start()] returns, the toggle flips the
    listening flag, calling [stop()] when it was on and [start()] when it
    was off; when [start()] throws the flag stays off, the error message
    has already been cleared and the exception leaves the handler.
    Without a recogniser the toggle does nothing.  The recogniser's error
    and end callbacks switch the flag off and leave the transcript as it
    is. *)
Theorem listening_transitions
    (started : Completion unit) (s : AppState)
    (event : SpeechRecognitionErrorEvent) :
  let h := toggleListening true started s in
  (started = Normal tt →
   isListening (run s h) = negb (isListening s)
   ∧ List.filter (λ a, negb (isSetter a)) (trace h)
     = [if isListening s then RecognitionStop else RecognitionStart])
  ∧ (∀ e, started = Abrupt e → isListening s = false →
       isListening (run s h) = false
       ∧ error (run s h) = []
       ∧ completion h = Abrupt e)
  ∧ (isListening s = true →
     run s h = apply s (SetIsListening false)
     ∧ completion h = Normal tt)
  ∧ toggleListening false started s = mret tt
  ∧ run s (onerror event)
    = apply (apply s (SetError (js "Speech recognition error: "
                                ++ event_error event)))
            (SetIsListening false)
  ∧ run s onend = apply s (SetIsListening false).
Proof.
  cbv zeta. unfold run, toggleListening, completion.
  split; [|split; [|split]].
  - intros ->. by destruct (isListening s).
  - intros e -> Hidle. rewrite Hidle. by cbn.
  - intros Hon. rewrite Hon. by cbn.
  - by cbn.
Qed.

Lemma listening_transitions_witness :
  let s := Examples.recorded [] in
  isListening s = true
  ∧ isListening (run s (toggleListening true (Normal tt) s)) = false.
Proof.
  split; [reflexivity|].
  exact (proj1 (proj1 (listening_transitions (Normal tt)
                         (Examples.recorded [])
                         {| event_error := js "no-speech" |}) eq_refl)).
Defined.

(** *** Analysis *)

Lemma orElse_truthy (v : option jsstring) (d : jsstring) :
  d ≠ [] → orElse v d ≠ [].
Proof.
  intros Hd. unfold orElse. destruct v as [[|c t]|]; done.
Qed.

Lemma generatedTextOf_nonempty (data : GenerateContentResponse) :
  generatedTextOf data ≠ [].
Proof. by apply orElse_truthy. Qed.

(** Every failure of a generation is a value thrown inside the [try]
    block, and the [catch] clause shows its message. *)
Lemma processWithGemini_failed (w : World) (s : AppState) (e : Thrown) :
  blank (transcript s) = false →
  blank (geminiApiKey s) = false →
  let req :=
    generationRequest (geminiApiKey s) (customPrompt s) (transcript s) in
  fetch w req = Abrupt e
  ∨ fetch w req = Normal (OkResponse (Abrupt e))
  ∨ fetch w req = Normal (NotOkResponse (Abrupt e))
  ∨ (fetch w req = Normal (OkResponse (Normal None))
     ∧ e = nullRead (js "candidates"))
  ∨ (fetch w req = Normal (NotOkResponse (Normal None))
     ∧ e = nullRead (js "error"))
  ∨ (∃ errorData,
       fetch w req = Normal (NotOkResponse (Normal (Some errorData)))
       ∧ e = ErrorObject (errorMessageOf errorData)) →
  processWithGemini w s
  = ([SetIsProcessing true; SetError []; SetGeminiResponse []; Fetch req;
      SetError (messageOr e (js "An error occurred"));
      SetIsProcessing false],
     Normal tt).
Proof.
  intros Ht Hk req Hfetch. unfold processWithGemini.
  rewrite !truthy_trim, Ht, Hk. cbn [negb]. cbv zeta. fold req.
  destruct Hfetch as [->|[->|[->|[[-> ->]|[[-> ->]|(errorData & -> & ->)]]]]];
    reflexivity.
Qed.

(** X5. When the generation fails, no row is passed to the store, no
    response is displayed, the processing flag is off again and the error
    message is: the thrown error's message (or "An error occurred" when it
    is no [Error]) if the request could not be sent or a body could not be
    read; the message of the [TypeError] of reading a member of [null] if
    the body, of an ok answer or of one that is not ok, is the JSON value
    [null]; the [error.message] of the endpoint's envelope if the status
    is not ok and that message is present and not empty; "Failed to
    process with Gemini API" if the status is not ok, the body is not
    [null] and that message is absent or empty. *)
Theorem generation_failure (w : World) (s : AppState) :
  blank (transcript s) = false →
  blank (geminiApiKey s) = false →
  let req :=
    generationRequest (geminiApiKey s) (customPrompt s) (transcript s) in
  let h := processWithGemini w s in
  let failsWith (msg : jsstring) :=
    error (run s h) = msg
    ∧ geminiResponse (run s h) = []
    ∧ isProcessing (run s h) = false
    ∧ insertedRows h = []
    ∧ completion h = Normal tt in
  (∀ e, fetch w req = Abrupt e
        ∨ fetch w req = Normal (OkResponse (Abrupt e))
        ∨ fetch w req = Normal (NotOkResponse (Abrupt e)) →
        failsWith (messageOr e (js "An error occurred")))
  ∧ (fetch w req = Normal (OkResponse (Normal None)) →
     failsWith (js "Cannot read properties of null (reading 'candidates')"))
  ∧ (fetch w req = Normal (NotOkResponse (Normal None)) →
     failsWith (js "Cannot read properties of null (reading 'error')"))
  ∧ (∀ errorData m,
       fetch w req = Normal (NotOkResponse (Normal (Some errorData))) →
       envelope_error errorData ≫= message = Some m → m ≠ [] →
       failsWith m)
  ∧ (∀ errorData,
       fetch w req = Normal (NotOkResponse (Normal (Some errorData))) →
       envelope_error errorData ≫= message = None
       ∨ envelope_error errorData ≫= message = Some [] →
       failsWith (js "Failed to process with Gemini API")).
Proof.
  intros Ht Hk. cbv zeta. split; [|split; [|split; [|split]]].
  - intros e He.
    rewrite (processWithGemini_failed w s e Ht Hk); [done|].
    cbv zeta. destruct He as [He|[He|He]]; eauto 10.
  - intros He.
    rewrite (processWithGemini_failed w s (nullRead (js "candidates")) Ht Hk);
      [done|].
    cbv zeta. eauto 10.
  - intros He.
    rewrite (processWithGemini_failed w s (nullRead (js "error")) Ht Hk);
      [done|].
    cbv zeta. eauto 10.
  - intros errorData m He Hm Hne.
    rewrite (processWithGemini_failed w s
               (ErrorObject (errorMessageOf errorData)) Ht Hk).
    + cbn. repeat split.
      unfold errorMessageOf, orElse, jsstring in *. rewrite Hm.
      by destruct m.
    + cbv zeta. do 5 right. by exists errorData.
  - intros errorData He Hm.
    rewrite (processWithGemini_failed w s
               (ErrorObject (errorMessageOf errorData)) Ht Hk).
    + cbn. repeat split.
      unfold errorMessageOf, orElse, jsstring in *.
      by destruct Hm as [-> | ->].
    + cbv zeta. do 5 right. by exists errorData.
Qed.

Lemma generation_failure_witness :
  let s := Examples.recorded [] in
  let h := processWithGemini Examples.quotaExceeded s in
  error (run s h) = js "Quota exceeded" ∧ insertedRows h = [].
Proof.
  pose proof (proj1 (proj2 (proj2 (proj2
                (generation_failure Examples.quotaExceeded
                   (Examples.recorded []) eq_refl eq_refl))))
                _ (js "Quota exceeded") eq_refl eq_refl)
    as Hfail.
  destruct Hfail as (Herror & _ & _ & Hrows & _); [discriminate|].
  split; [exact Herror|exact Hrows].
Defined.

(** Every way [processWithGemini] can run. *)
Lemma processWithGemini_cases (w : World) (s : AppState) :
  let req :=
    generationRequest (geminiApiKey s) (customPrompt s) (transcript s) in
  (blank (transcript s) = true
   ∧ processWithGemini w s
     = ([SetError (js "Please record some speech first")], Normal tt))
  ∨ (blank (transcript s) = false ∧ blank (geminiApiKey s) = true
     ∧ processWithGemini w s
       = ([SetError (js "Please enter your Gemini API key")], Normal tt))
  ∨ (blank (transcript s) = false ∧ blank (geminiApiKey s) = false
     ∧ ∃ msg, processWithGemini w s
       = ([SetIsProcessing true; SetError []; SetGeminiResponse [];
           Fetch req; SetError msg; SetIsProcessing false], Normal tt))
  ∨ (blank (transcript s) = false ∧ blank (geminiApiKey s) = false
     ∧ ∃ data reported,
         fetch w req = Normal (OkResponse (Normal (Some data)))
         ∧ Forall (λ a, ∃ msg, a = SetError msg) reported
         ∧ processWithGemini w s
           = ([SetIsProcessing true; SetError []; SetGeminiResponse [];
               Fetch req; SetGeminiResponse (generatedTextOf data);
               Insert {| row_transcript := transcript s;
                         row_gemini_response := generatedTextOf data |}]
              ++ reported ++ [SetIsProcessing false], Normal tt)).
Proof.
  cbv zeta.
  destruct (blank (transcript s)) eqn:Ht.
  { left. split; [done|]. unfold processWithGemini.
    by rewrite truthy_trim, Ht. }
  destruct (blank (geminiApiKey s)) eqn:Hk.
  { right; left. split; [done|]. split; [done|]. unfold processWithGemini.
    by rewrite !truthy_trim, Ht, Hk. }
  destruct (fetch w (generationRequest (geminiApiKey s) (customPrompt s)
                       (transcript s)))
    as [[[[data|]|e]|[[errorData|]|e]]|e] eqn:Hfetch.
  - do 3 right. split; [done|]. split; [done|].
    pose proof (processWithGemini_ok w s data Ht Hk Hfetch) as Hok.
    cbv zeta in Hok. exists data.
    destruct (insert w _) as [r|err].
    + exists []. by repeat split.
    + eexists [_]. split; [done|]. split; [|done].
      repeat constructor. eauto.
  - do 2 right; left. split; [done|]. split; [done|]. eexists.
    apply (processWithGemini_failed w s (nullRead (js "candidates")));
      eauto 10.
  - do 2 right; left. split; [done|]. split; [done|]. eexists.
    apply (processWithGemini_failed w s e); eauto 10.
  - do 2 right; left. split; [done|]. split; [done|]. eexists.
    apply (processWithGemini_failed w s
             (ErrorObject (errorMessageOf errorData))); eauto 10.
  - do 2 right; left. split; [done|]. split; [done|]. eexists.
    apply (processWithGemini_failed w s (nullRead (js "error"))); eauto 10.
  - do 2 right; left. split; [done|]. split; [done|]. eexists.
    apply (processWithGemini_failed w s e); eauto 10.
  - do 2 right; left. split; [done|]. split; [done|]. eexists.
    apply (processWithGemini_failed w s e); eauto 10.
Qed.

(** Setting the error message touches no other field and is no call. *)
Lemma reported_frame (reported : list Action) (u : AppState) :
  Forall (λ a, ∃ msg, a = SetError msg) reported →
  let u' := foldl apply u reported in
  transcript u' = transcript u
  ∧ geminiResponse u' = geminiResponse u
  ∧ isProcessing u' = isProcessing u
  ∧ isListening u' = isListening u
  ∧ copied u' = copied u
  ∧ geminiApiKey u' = geminiApiKey u
  ∧ customPrompt u' = customPrompt u.
Proof.
  intros Hrep. revert u. induction Hrep as [|a k [msg ->] _ IH]; intros u.
  - done.
  - cbn. apply (IH (apply u (SetError msg))).
Qed.

Lemma reported_calls (reported : list Action) :
  Forall (λ a, ∃ msg, a = SetError msg) reported →
  omap (λ a, match a with Fetch req => Some (body req) | _ => None end)
       reported = []
  ∧ omap (λ a, match a with Insert row => Some row | _ => None end)
         reported = [].
Proof. induction 1 as [|a k [msg ->] _ [IH1 IH2]]; [done|]. by cbn. Qed.

(** X6. The analyze action never lets an exception escape and never
    changes the transcript, the API key, the custom prompt, the listening
    flag or the copied flag.  It leaves the processing flag alone when a
    guard stops it and switches it off at its end otherwise, whatever
    happened in between.  It sends at most one generation request and
    passes at most one row to the store. *)
Theorem analyze_frame (w : World) (s : AppState) :
  let h := processWithGemini w s in
  let s' := run s h in
  completion h = Normal tt
  ∧ transcript s' = transcript s
  ∧ geminiApiKey s' = geminiApiKey s
  ∧ customPrompt s' = customPrompt s
  ∧ isListening s' = isListening s
  ∧ copied s' = copied s
  ∧ isProcessing s'
    = (if blank (transcript s) || blank (geminiApiKey s)
       then isProcessing s else false)
  ∧ length (requestBodies h) ≤ 1
  ∧ length (insertedRows h) ≤ 1.
Proof.
  cbv zeta. unfold run, completion, requestBodies, insertedRows.
  destruct (processWithGemini_cases w s)
    as [(Ht & ->)|[(Ht & Hk & ->)|[(Ht & Hk & msg & ->)
       |(Ht & Hk & data & reported & _ & Hrep & ->)]]];
    rewrite Ht, ?Hk; cbn; try (repeat split; first [done | lia]).
  rewrite !foldl_app, !omap_app.
  destruct (reported_calls reported Hrep) as [-> ->].
  pose proof (reported_frame reported
    (apply (apply (apply (apply (apply (apply s (SetIsProcessing true))
       (SetError [])) (SetGeminiResponse []))
       (Fetch (generationRequest (geminiApiKey s) (customPrompt s)
                 (transcript s))))
       (SetGeminiResponse (generatedTextOf data)))
       (Insert {| row_transcript := transcript s;
                  row_gemini_response := generatedTextOf data |})) Hrep)
    as (H1 & H2 & H3 & H4 & H5 & H6 & H7).
  cbv zeta in *. cbn in *. repeat split; try done; lia.
Qed.

(** X7. Every row the analyze action passes to the store pairs the
    transcript of the screen, which is not blank, with the text that ends
    up displayed as the response, which is not empty; it is passed only
    after a generation request that was answered with a success envelope,
    and only with an API key that is not blank. *)
Theorem stored_row_invariant
    (w : World) (s : AppState) (row : SpeechRecordInsert) :
  row ∈ insertedRows (processWithGemini w s) →
  row_transcript row = transcript s
  ∧ blank (row_transcript row) = false
  ∧ blank (geminiApiKey s) = false
  ∧ row_gemini_response row ≠ []
  ∧ row_gemini_response row = geminiResponse (run s (processWithGemini w s))
  ∧ ∃ data,
      fetch w (generationRequest (geminiApiKey s) (customPrompt s)
                 (transcript s))
      = Normal (OkResponse (Normal (Some data)))
      ∧ row_gemini_response row = generatedTextOf data.
Proof.
  unfold run, insertedRows.
  destruct (processWithGemini_cases w s)
    as [(Ht & ->)|[(Ht & Hk & ->)|[(Ht & Hk & msg & ->)
       |(Ht & Hk & data & reported & Hfetch & Hrep & ->)]]]; cbn;
    try (by intros ?%elem_of_nil).
  rewrite !omap_app, !foldl_app.
  destruct (reported_calls reported Hrep) as [_ ->]. cbn.
  intros ->%list_elem_of_singleton. cbn.
  pose proof (reported_frame reported
    (apply (apply (apply (apply (apply (apply s (SetIsProcessing true))
       (SetError [])) (SetGeminiResponse []))
       (Fetch (generationRequest (geminiApiKey s) (customPrompt s)
                 (transcript s))))
       (SetGeminiResponse (generatedTextOf data)))
       (Insert {| row_transcript := transcript s;
                  row_gemini_response := generatedTextOf data |})) Hrep)
    as (_ & H2 & _).
  cbv zeta in H2. cbn in H2. rewrite H2.
  repeat split; try done.
  - apply generatedTextOf_nonempty.
  - by exists data.
Qed.

Lemma stored_row_invariant_witness :
  let s := Examples.recorded [] in
  geminiResponse
    (run s (processWithGemini (Examples.answering (Some (js "Summary")) None) s))
  = js "Summary".
Proof.
  symmetry.
  refine (proj1 (proj2 (proj2 (proj2 (proj2
    (stored_row_invariant (Examples.answering (Some (js "Summary")) None)
       (Examples.recorded [])
       {| row_transcript := js "Meet on June 1";
          row_gemini_response := js "Summary" |} _)))))).
  apply list_elem_of_singleton. reflexivity.
Defined.

(** *** The rendered screen *)

(** X8. The Analyze button is disabled exactly while an analysis is in
    progress or the transcript is blank, and a disabled button does
    nothing.  A click on the enabled button is therefore never stopped by
    the transcript guard: with a blank API key it only sets the key
    message, and otherwise it sends one generation request. *)
Theorem analyze_button (w : World) (s : AppState) :
  (analyzeDisabled (render s) = true
   ↔ isProcessing s = true ∨ blank (transcript s) = true)
  ∧ (analyzeDisabled (render s) = true → clickAnalyze w s = mret tt)
  ∧ (analyzeDisabled (render s) = false →
     head (trace (clickAnalyze w s))
     ≠ Some (SetError (js "Please record some speech first"))
     ∧ (blank (geminiApiKey s) = true →
        trace (clickAnalyze w s)
        = [SetError (js "Please enter your Gemini API key")])
     ∧ (blank (geminiApiKey s) = false →
        requestBodies (clickAnalyze w s)
        = [oneTextBlock (requestText (customPrompt s) (transcript s))])).
Proof.
  unfold clickAnalyze. cbn [render analyzeDisabled].
  rewrite truthy_trim, negb_involutive.
  split; [|split].
  - by rewrite orb_true_iff.
  - by intros ->.
  - intros Hen. rewrite Hen. apply orb_false_iff in Hen as [_ Ht].
    split; [|split].
    + destruct (processWithGemini_cases w s)
        as [(Ht' & _)|[(_ & _ & ->)|[(_ & _ & msg & ->)
           |(_ & _ & data & reported & _ & _ & ->)]]];
        [congruence|by cbn..].
    + intros Hk. unfold processWithGemini.
      by rewrite !truthy_trim, Ht, Hk.
    + intros Hk. by apply processWithGemini_requests.
Qed.

Lemma analyze_button_witness :
  let s := Examples.recorded [] in
  requestBodies (clickAnalyze (Examples.answering None None) s)
  = [oneTextBlock (requestText [] (js "Meet on June 1"))].
Proof.
  exact (proj2 (proj2 (proj2 (proj2
    (analyze_button (Examples.answering None None) (Examples.recorded []))
    ) eq_refl)) eq_refl).
Defined.

(** X9. After Clear the screen shows no response, no copy button and no
    error, both text areas are empty and the Analyze button is disabled;
    the API key input, the microphone button and the recording indicator
    are as before.  Clearing twice is clearing once. *)
Theorem clear_view (s : AppState) :
  let v := render (run s clearAll) in
  responsePanel v = None
  ∧ copyButton v = None
  ∧ errorPanel v = None
  ∧ transcriptInput v = []
  ∧ promptInput v = []
  ∧ analyzeDisabled v = true
  ∧ keyInput v = keyInput (render s)
  ∧ micActive v = micActive (render s)
  ∧ recordingIndicator v = recordingIndicator (render s)
  ∧ run (run s clearAll) clearAll = run s clearAll.
Proof.
  cbv zeta. cbn. rewrite orb_true_r. by repeat split.
Qed.

(** X10. The copy button exists exactly when a response is displayed, and
    it copies that response.  When the clipboard accepts the text the
    check mark is shown and a timer of 2000 ms is started whose callback
    brings the copy icon back; the error message is untouched.  When the
    clipboard refuses, the icon does not change, no timer is started and
    the error message is "Failed to copy to clipboard". *)
Theorem copy_response (w : World) (s : AppState) :
  let h := clickCopy w s in
  (geminiResponse s = [] → copyButton (render s) = None ∧ h = mret tt)
  ∧ (geminiResponse s ≠ [] →
     match writeText w (geminiResponse s) with
     | Normal _ =>
         trace h = [ClipboardWriteText (geminiResponse s); SetCopied true;
                    SetTimeout ResetCopied 2000]
         ∧ copyButton (render (run s h)) = Some true
         ∧ copyButton (render (run (run s h) (runTimer ResetCopied)))
           = Some false
         ∧ error (run s h) = error s
     | Abrupt _ =>
         trace h = [ClipboardWriteText (geminiResponse s);
                    SetError (js "Failed to copy to clipboard")]
         ∧ copyButton (render (run s h)) = copyButton (render s)
         ∧ error (run s h) = js "Failed to copy to clipboard"
     end
     ∧ completion h = Normal tt).
Proof.
  cbv zeta. unfold clickCopy, run, copyToClipboard, completion.
  cbn [render copyButton]. split.
  - by intros ->.
  - destruct (geminiResponse s) as [|c t] eqn:Hr; [done|]. intros _.
    cbn. destruct (writeText w (c :: t)) as [[]|e]; cbn; by rewrite ?Hr.
Qed.

Lemma copy_response_witness :
  let s := Examples.recorded [] in
  copyButton (render (run s (clickCopy (Examples.answering None None) s)))
  = Some true.
Proof.
  assert (geminiResponse (Examples.recorded []) ≠ []) as Hne
    by discriminate.
  exact (proj1 (proj2 (proj1 (proj2
    (copy_response (Examples.answering None None) (Examples.recorded []))
    Hne)))).
Defined.

(** X11. After an analysis whose request was answered with a success
    status, the Analyze button is enabled again and the spinner is gone.
    If the JSON body is not [null] the response panel shows the generated
    text, never the waiting placeholder, and the copy button is there.  If
    the body is [null] the response panel shows the waiting placeholder,
    there is no copy button and the error panel shows the message of the
    [TypeError] of reading [candidates] of [null]. *)
Theorem success_view (w : World) (s : AppState) :
  blank (transcript s) = false →
  blank (geminiApiKey s) = false →
  let req :=
    generationRequest (geminiApiKey s) (customPrompt s) (transcript s) in
  let v := render (run s (processWithGemini w s)) in
  (∀ data,
     fetch w req = Normal (OkResponse (Normal (Some data))) →
     responsePanel v = Some (generatedTextOf data)
     ∧ copyButton v = Some (copied s)
     ∧ analyzeDisabled v = false
     ∧ analyzeBusy v = false)
  ∧ (fetch w req = Normal (OkResponse (Normal None)) →
     responsePanel v = None
     ∧ copyButton v = None
     ∧ errorPanel v
       = Some (js "Cannot read properties of null (reading 'candidates')")
     ∧ analyzeDisabled v = false
     ∧ analyzeBusy v = false).
Proof.
  intros Ht Hk. cbv zeta. split.
  - intros data Hfetch.
    assert (geminiResponse (run s (processWithGemini w s))
            = generatedTextOf data
            ∧ transcript (run s (processWithGemini w s)) = transcript s
            ∧ copied (run s (processWithGemini w s)) = copied s
            ∧ isProcessing (run s (processWithGemini w s)) = false)
      as (Hg & Htr & Hc & Hp).
    { unfold run. rewrite (processWithGemini_ok w s data Ht Hk Hfetch).
      cbv zeta. destruct (insert w _); by cbn. }
    unfold render. cbn. rewrite Hg, Htr, Hc, Hp, truthy_trim, Ht.
    pose proof (generatedTextOf_nonempty data) as Hne.
    by destruct (generatedTextOf data).
  - intros Hfetch. unfold run.
    rewrite (processWithGemini_failed w s (nullRead (js "candidates")) Ht Hk)
      by eauto 10.
    unfold render. cbn -[truthy trim js]. rewrite truthy_trim, Ht.
    by cbn.
Qed.

Lemma success_view_witness :
  let w := Examples.answering (Some (js "Summary")) None in
  let s := Examples.recorded [] in
  responsePanel (render (run s (processWithGemini w s)))
  = Some (js "Summary")
  ∧ responsePanel
      (render (run s (processWithGemini Examples.nullBody s))) = None.
Proof.
  split.
  - exact (proj1 (proj1 (success_view
                    (Examples.answering (Some (js "Summary")) None)
                    (Examples.recorded []) eq_refl eq_refl)
                    (Examples.envelope _) eq_refl)).
  - exact (proj1 (proj2 (success_view Examples.nullBody
                    (Examples.recorded []) eq_refl eq_refl) eq_refl)).
Defined.

End CaptureMore.

(** ** The history screen, further properties *)

Section HistoryMore.
Import JS History.
#[local] Arguments js : simpl never.

(** *** Fetching *)

(** X12. [fetchRecords] issues one query, never lets an exception escape
    and always ends with the loading flag off, the selection and the copy
    confirmation untouched.  When the store answers without an error the
    list becomes the rows it returned, or the empty list when it returned
    none, and the error message is left as it was; when the store reports
    an error or the query rejects, the list is left as it was and the
    error message becomes the error's message, or "Failed to load
    history" when the error is no [Error]. *)
Theorem fetch_settles (w : World) (s : State) :
  let h := fetchRecords w in
  let s' := run s h in
  completion h = Normal tt
  ∧ List.filter isCall (trace h) = [Select]
  ∧ isLoading s' = false
  ∧ selectedRecord s' = selectedRecord s
  ∧ copied s' = copied s
  ∧ match select w with
    | Normal response =>
        match select_error response with
        | None =>
            records s' = default [] (data response) ∧ error s' = error s
        | Some e =>
            records s' = records s
            ∧ error s' = messageOr e (js "Failed to load history")
        end
    | Abrupt e =>
        records s' = records s
        ∧ error s' = messageOr e (js "Failed to load history")
    end.
Proof.
  cbv zeta. unfold run, fetchRecords, completion. cbn.
  destruct (select w) as [[d [e|]]|e]; by cbn.
Qed.

(** *** Deleting *)

Lemma deleteRecord_ok (w : World) (s : State) (rid : jsstring) :
  delete w rid = Normal {| delete_error := None |} →
  records (run s (deleteRecord w s rid))
  = List.filter (λ r, negb (bool_decide (id r = rid))) (records s)
  ∧ error (run s (deleteRecord w s rid)) = error s
  ∧ isLoading (run s (deleteRecord w s rid)) = isLoading s
  ∧ copied (run s (deleteRecord w s rid)) = copied s.
Proof.
  intros Hdel. unfold run, deleteRecord. cbn. rewrite Hdel. cbn.
  destruct (isSelected s rid); by cbn.
Qed.

Lemma filter_filter_ids (a b : jsstring) (l : list SpeechRecord) :
  List.filter (λ r, negb (bool_decide (id r = b)))
    (List.filter (λ r, negb (bool_decide (id r = a))) l)
  = List.filter (λ r, negb (bool_decide (id r = a))
                      && negb (bool_decide (id r = b))) l.
Proof.
  induction l as [|r l IH]; [done|]. cbn.
  destruct (negb (bool_decide (id r = a))); cbn; [|done].
  destruct (negb (bool_decide (id r = b))); by rewrite IH.
Qed.

(** X13. Deleting is by id only: a successful delete of an id that no
    listed record has leaves the list as it is, deleting the same id again
    changes nothing more, and two deletes, each clicked after the other
    had settled, remove both ids whatever their order.  A successful
    delete does not touch the error message. *)
Theorem delete_by_id (w : World) (s : State) (a b : jsstring) :
  delete w a = Normal {| delete_error := None |} →
  delete w b = Normal {| delete_error := None |} →
  let after (rid : jsstring) (u : State) := run u (deleteRecord w u rid) in
  (a ∉ id <$> records s → records (after a s) = records s)
  ∧ records (after a (after a s)) = records (after a s)
  ∧ records (after b (after a s)) = records (after a (after b s))
  ∧ (∀ r, r ∈ records (after b (after a s))
          ↔ r ∈ records s ∧ id r ≠ a ∧ id r ≠ b)
  ∧ error (after a s) = error s.
Proof.
  intros Ha Hb. cbv beta zeta.
  pose proof (λ u, proj1 (deleteRecord_ok w u a Ha)) as Hra.
  pose proof (λ u, proj1 (deleteRecord_ok w u b Hb)) as Hrb.
  rewrite !Hra, !Hrb, !Hra, !filter_filter_ids.
  split; [by apply filter_other_ids|]. split; [|split; [|split]].
  - apply List.filter_ext. intros r. by destruct (negb _).
  - apply List.filter_ext. intros r. apply andb_comm.
  - intros r. rewrite !list_elem_of_In, filter_In, andb_true_iff.
    rewrite !negb_true_iff, !bool_decide_eq_false. done.
  - apply deleteRecord_ok, Ha.
Qed.

Lemma delete_by_id_witness :
  let after (rid : jsstring) (u : State) :=
    run u (deleteRecord Examples.working u rid) in
  records (after (js "9") Examples.browsing) = records Examples.browsing.
Proof.
  refine (proj1 (delete_by_id Examples.working Examples.browsing
                   (js "9") (js "1") eq_refl eq_refl) _).
  apply (bool_decide_unpack _). vm_compute. exact I.
Defined.

(** X14. A delete handler writes the list of the render it was created
    in.  When two deletes that succeed are clicked in the same render,
    before either has settled, the one settling last puts back the record
    the other had removed: the resulting list is the list of that render
    without the second record only. *)
Theorem delete_overlapping (w : World) (s : State) (a b : jsstring) :
  delete w a = Normal {| delete_error := None |} →
  delete w b = Normal {| delete_error := None |} →
  let s1 := run s (deleteRecord w s a) in
  let s2 := run s1 (deleteRecord w s b) in
  records s2 = List.filter (λ r, negb (bool_decide (id r = b))) (records s)
  ∧ (∀ r, r ∈ records s → id r = a → a ≠ b → (r ∉ records s1) ∧ r ∈ records s2).
Proof.
  intros Ha Hb. cbv zeta.
  assert (∀ u, records (run u (deleteRecord w s b))
               = List.filter (λ r, negb (bool_decide (id r = b))) (records s))
    as Hstale.
  { intros u. unfold run, deleteRecord. cbn. rewrite Hb. cbn.
    destruct (isSelected s b); by cbn. }
  rewrite Hstale. split; [done|]. intros r Hin Hid Hne.
  rewrite (proj1 (deleteRecord_ok w s a Ha)).
  rewrite !list_elem_of_In, !filter_In, !negb_true_iff.
  rewrite !bool_decide_eq_false, <- list_elem_of_In. subst a. split.
  - by intros [_ ?].
  - done.
Qed.

Lemma delete_overlapping_witness :
  let s := Examples.browsing in
  let s1 := run s (deleteRecord Examples.working s (js "1")) in
  let s2 := run s1 (deleteRecord Examples.working s (js "2")) in
  records s2 = [Examples.record1].
Proof.
  exact (proj1 (delete_overlapping Examples.working Examples.browsing
                  (js "1") (js "2") eq_refl eq_refl)).
Defined.

Lemma exec_pending_setter (sys : System) (v : list SpeechRecord) :
  pending (foldl exec sys [SetRecords v]) = pending sys.
Proof. reflexivity. Qed.

(** The overlapping run is one the screen can make: both deletes are
    clicked in the list view, then both settle. *)
Lemma delete_overlapping_steps (w : World) (sys : System) e rs r1 r2 :
  render (ui sys) = ListView e (RecordGrid rs) →
  r1 ∈ rs → r2 ∈ rs →
  delete w (id r1) = Normal {| delete_error := None |} →
  delete w (id r2) = Normal {| delete_error := None |} →
  ∃ sys',
    rtc step sys sys'
    ∧ ui sys' = run (run (ui sys) (deleteRecord w (ui sys) (id r1)))
                    (deleteRecord w (ui sys) (id r2)).
Proof.
  intros Hrender H1 H2 Hd1 Hd2.
  assert (selectedRecord (ui sys) = None) as Hsel.
  { unfold render in Hrender. by destruct (selectedRecord (ui sys)). }
  assert (∀ rid sys0,
            ui sys0 = ui sys →
            delete w rid = Normal {| delete_error := None |} →
            start sys0 (deleteRecord w (ui sys0) rid)
            = {| ui := ui sys;
                 pending :=
                   pending sys0
                   ++ [[SetRecords
                          (List.filter (λ r, negb (bool_decide (id r = rid)))
                             (records (ui sys)))]] |}) as Hstart.
  { intros rid sys0 Hui Hd. unfold start, deleteRecord, isSelected.
    rewrite Hui, Hsel. cbn. rewrite Hd. cbn. by rewrite Hui. }
  eexists. split.
  - eapply rtc_l; [exact (step_delete_item sys w e rs r1 Hrender H1)|].
    rewrite (Hstart (id r1) sys eq_refl Hd1).
    eapply rtc_l.
    { apply (step_delete_item _ w e rs r2); [exact Hrender|exact H2]. }
    rewrite Hstart by done. cbn [pending].
    eapply rtc_l.
    { eapply (step_resume _ (pending sys)). cbn [pending].
      rewrite <- app_assoc. reflexivity. }
    eapply rtc_l.
    { eapply (step_resume _ (pending sys)). rewrite exec_pending_setter.
      reflexivity. }
    apply rtc_refl.
  - cbn. unfold run, deleteRecord, isSelected. rewrite Hsel. cbn.
    rewrite Hd1, Hd2. cbn. by rewrite ?Hsel.
Qed.

(** *** The detail view *)

(** X15. The detail view has no error display.  A copy that the clipboard
    refuses while a record is open sets the error message without
    anything being shown; the message appears once the user is back in
    the list, where it stays. *)
Theorem detail_view_hides_error
    (w : World) (s : State) (r : SpeechRecord) (e : Thrown) :
  selectedRecord s = Some r →
  writeText w (transcript r) = Abrupt e →
  let s' := run s (copyTranscript w r) in
  error s' = js "Failed to copy to clipboard"
  ∧ showsError (render s') = false
  ∧ showsError (render (run s' backToHistory)) = true
  ∧ ∀ u : State, selectedRecord u ≠ None → showsError (render u) = false.
Proof.
  intros Hsel Hw. cbv zeta.
  unfold run, copyTranscript, copyToClipboard, render. cbn.
  rewrite Hw. cbn. rewrite Hsel. repeat split.
  intros u Hu. by destruct (selectedRecord u).
Qed.

Lemma detail_view_hides_error_witness :
  let s' := run Examples.browsing
              (copyTranscript Examples.failing Examples.record1) in
  showsError (render s') = false
  ∧ showsError (render (run s' backToHistory)) = true.
Proof.
  pose proof (detail_view_hides_error Examples.failing Examples.browsing
                Examples.record1 NotAnError eq_refl eq_refl)
    as (_ & Hhidden & Hshown & _).
  split; [exact Hhidden|exact Hshown].
Defined.

(** *** The screen over time *)

Lemma start_ui_loaded {A} (sys : System) (h : Handler Action A) :
  forallb leavesLoading (trace h) = true →
  isLoading (ui sys) = false →
  isLoading (ui (start sys h)) = false.
Proof.
  intros Hh Hloaded.
  assert (forallb neverStartsLoading (trace h) = true) as Hn.
  { apply forallb_forall. intros a Ha. apply leavesLoading_never.
    by apply (proj1 (forallb_forall _ _) Hh). }
  unfold start. pose proof (splitAtCall_app (trace h)) as Hsplit.
  destruct (splitAtCall (trace h)) as [pre post]. simpl in Hsplit.
  rewrite <- Hsplit, forallb_app in Hn.
  apply andb_true_iff in Hn as [Hpre _].
  assert (isLoading (ui (foldl exec sys pre)) = false) as Hui.
  { rewrite exec_ui. by apply stays_loaded. }
  by destruct post.
Qed.

(** X16. The loading indicator is shown from the mount until the first
    thing happens, which can only be the fetch settling, and never again:
    after any step from any reachable state the loading flag is off. *)
Theorem loading_only_at_first (sys sys' : System) :
  reachable sys → step sys sys' → isLoading (ui sys') = false.
Proof.
  intros Hinv%reachable_invariant Hstep.
  destruct Hstep as [sys e rs r Hr _ | sys w e rs r Hr _ | sys r tc rc Hr
                    | sys w r tc rc Hr | sys w r tc rc Hr | sys w r tc rc Hr
                    | sys before k after Hp].
  - apply start_ui_loaded; [done|]. by eapply render_grid_loaded.
  - apply start_ui_loaded; [apply deleteRecord_leavesLoading|].
    by eapply render_grid_loaded.
  - apply start_ui_loaded; [done|]. by eapply render_detail_loaded.
  - apply start_ui_loaded; [apply deleteRecord_leavesLoading|].
    by eapply render_detail_loaded.
  - apply start_ui_loaded; [apply copyToClipboard_leavesLoading|].
    by eapply render_detail_loaded.
  - apply start_ui_loaded; [apply copyToClipboard_leavesLoading|].
    by eapply render_detail_loaded.
  - destruct Hinv as [Hpending Hloading]. rewrite Hp in Hpending, Hloading.
    apply Forall_app in Hpending as [_ Hk].
    apply Forall_cons_1 in Hk as [Hk _].
    rewrite exec_ui. simpl.
    destruct (isLoading (ui sys)) eqn:Hui.
    + destruct Hloading as (_ & _ & Hends); [done|].
      apply Forall_app in Hends as [_ Hends].
      apply Forall_cons_1 in Hends as [Hends _].
      by apply endsLoading_loaded.
    + by apply stays_loaded.
Qed.

Lemma loading_only_at_first_witness :
  isLoading (ui Examples.afterFailedFetch) = false.
Proof.
  apply (loading_only_at_first (mount Examples.failing));
    [apply reachable_mount|].
  apply (step_resume (mount Examples.failing) []
           [SetError (js "timeout"); SetIsLoading false] []).
  reflexivity.
Defined.

(** The records on the screen come from the store. *)
Lemma apply_showsOnly (known : list SpeechRecord) (sys : System) (a : Action) :
  fromStore known a → showsOnly known sys → showsOnly known (exec sys a).
Proof.
  intros Ha (Hrec & Hsel & Hpend).
  destruct a as [v| | | |[r|]| | | |callback ms]; cbn in *;
    try (by repeat split).
  - repeat split; try done. by intros ? [= <-].
  - repeat split; try done. apply Forall_app. split; [done|].
    destruct callback. by repeat constructor.
Qed.

Lemma foldl_showsOnly (known : list SpeechRecord) (k : list Action)
    (sys : System) :
  Forall (fromStore known) k → showsOnly known sys →
  showsOnly known (foldl exec sys k).
Proof.
  intros Hk. revert sys. induction Hk as [|a k Ha _ IH]; intros sys Hsys.
  - done.
  - cbn. apply IH. by apply apply_showsOnly.
Qed.

Lemma start_showsOnly {A} (known : list SpeechRecord) (sys : System)
    (h : Handler Action A) :
  Forall (fromStore known) (trace h) → showsOnly known sys →
  showsOnly known (start sys h).
Proof.
  intros Hh Hsys. unfold start.
  pose proof (splitAtCall_app (trace h)) as Hsplit.
  destruct (splitAtCall (trace h)) as [pre post]. simpl in Hsplit.
  rewrite <- Hsplit in Hh. apply Forall_app in Hh as [Hpre Hpost].
  pose proof (foldl_showsOnly known pre sys Hpre Hsys) as (H1 & H2 & H3).
  destruct post as [|a post]; [done|].
  repeat split; try done. cbn. apply Forall_app. split; [done|].
  constructor; [exact Hpost|constructor].
Qed.

Lemma deleteRecord_fromStore (known : list SpeechRecord) (w : World)
    (u : State) (rid : jsstring) :
  records u `sublist_of` known →
  Forall (fromStore known) (trace (deleteRecord w u rid)).
Proof.
  intros Hu. unfold deleteRecord. cbn.
  destruct (delete w rid) as [[[e|]]|e]; cbn; try (by repeat constructor).
  assert (List.filter (λ r, negb (bool_decide (id r = rid))) (records u)
          `sublist_of` known) as Hsub.
  { etransitivity; [apply filter_sublist|done]. }
  destruct (isSelected u rid); by repeat constructor.
Qed.

Lemma copyToClipboard_fromStore (known : list SpeechRecord) (w : World)
    (text key : jsstring) :
  Forall (fromStore known) (trace (copyToClipboard w text key)).
Proof.
  unfold copyToClipboard. cbn.
  destruct (writeText w text) as [[]|e]; by repeat constructor.
Qed.

Lemma mount_showsOnly (w : World) : showsOnly (fetched w) (mount w).
Proof.
  unfold mount, start, fetchRecords, fetched, showsOnly. cbn.
  destruct (select w) as [[d [e|]]|e]; cbn;
    (split; [apply sublist_nil_l|]); (split; [done|]);
    repeat (constructor; cbn; try done).
Qed.

Lemma render_grid_records (u : State) e rs :
  render u = ListView e (RecordGrid rs) → rs = records u.
Proof.
  unfold render. destruct (selectedRecord u); [done|].
  destruct (isLoading u); [done|].
  destruct (bool_decide _); [done|]. by intros [= _ <-].
Qed.

Lemma step_showsOnly (known : list SpeechRecord) (sys sys' : System) :
  showsOnly known sys → step sys sys' → showsOnly known sys'.
Proof.
  intros Hsys Hstep. pose proof Hsys as (Hrec & Hsel & Hpend).
  destruct Hstep as [sys e rs r Hr Hin | sys w e rs r Hr _ | sys r tc rc Hr
                    | sys w r tc rc Hr | sys w r tc rc Hr | sys w r tc rc Hr
                    | sys before k after Hp].
  - apply start_showsOnly; [|done]. repeat constructor.
    apply render_grid_records in Hr as ->. cbn.
    by eapply elem_of_sublist.
  - apply start_showsOnly; [|done]. by apply deleteRecord_fromStore.
  - apply start_showsOnly; [|done]. by repeat constructor.
  - apply start_showsOnly; [|done]. by apply deleteRecord_fromStore.
  - apply start_showsOnly; [|done]. apply copyToClipboard_fromStore.
  - apply start_showsOnly; [|done]. apply copyToClipboard_fromStore.
  - rewrite Hp in Hpend. apply Forall_app in Hpend as [Hbefore Hk].
    apply Forall_cons_1 in Hk as [Hk Hafter].
    apply foldl_showsOnly; [done|]. repeat split; try done.
    cbn. by apply Forall_app.
Qed.

(** X17. However the clicks and the settling calls interleave, the list on
    the screen is always a sublist of the rows the fetch issued on mount
    returned, in their order, and the record open in the detail view is
    one of those rows: the screen never shows a record that did not come
    from the store, and never reorders the list. *)
Theorem shows_only_fetched (w : World) (sys : System) :
  rtc step (mount w) sys →
  records (ui sys) `sublist_of` fetched w
  ∧ ∀ r, selectedRecord (ui sys) = Some r → r ∈ fetched w.
Proof.
  intros Hsteps.
  assert (showsOnly (fetched w) sys) as (Hrec & Hsel & _); [|done].
  revert sys Hsteps. apply rtc_ind_r.
  - apply mount_showsOnly.
  - intros sys sys' _ Hstep IH. by eapply step_showsOnly.
Qed.

Lemma shows_only_fetched_witness :
  records (ui Examples.afterFailedFetch)
  `sublist_of` fetched Examples.failing.
Proof.
  refine (proj1 (shows_only_fetched Examples.failing
                   Examples.afterFailedFetch _)).
  apply rtc_once.
  apply (step_resume (mount Examples.failing) []
           [SetError (js "timeout"); SetIsLoading false] []).
  reflexivity.
Defined.

(** The states reached by steps from a mount are the reachable ones. *)
Lemma reachable_rtc (sys : System) :
  reachable sys ↔ ∃ w, rtc step (mount w) sys.
Proof.
  split.
  - induction 1 as [w | sys sys' _ [w IH] Hstep].
    + by exists w.
    + exists w. by eapply rtc_r.
  - intros [w Hsteps]. revert sys Hsteps. apply rtc_ind_r.
    + apply reachable_mount.
    + intros sys sys' _ Hstep IH. by eapply reachable_step.
Qed.

(** *** Copy confirmations over time *)

(** X18. Each copy that succeeds starts one timer of 2000 ms, and a
    timer that fires clears the confirmation of whichever target shows it:
    after two copies in a row the timer of the first one removes the
    confirmation of the second, however recent it is. *)
Theorem copy_timer_clears_any
    (w : World) (s : State) (text1 text2 : jsstring) (t1 t2 : CopyTarget) :
  writeText w text1 = Normal tt →
  writeText w text2 = Normal tt →
  let c1 := copyToClipboard w text1 (copyKey t1) in
  let c2 := copyToClipboard w text2 (copyKey t2) in
  let s2 := run (run s c1) c2 in
  trace c1 = [ClipboardWriteText text1; SetCopied (Some (copyKey t1));
              SetTimeout ResetCopied 2000]
  ∧ confirmed s2 t2 = true
  ∧ ∀ t, confirmed (run s2 (runTimer ResetCopied)) t = false.
Proof.
  intros H1 H2. cbv zeta. unfold run, copyToClipboard, confirmed. cbn.
  rewrite H1, H2. cbn. split; [done|]. split; [|done].
  by apply bool_decide_eq_true.
Qed.

Lemma copy_timer_clears_any_witness :
  let s2 := run (run Examples.browsing
                   (copyTranscript Examples.working Examples.record1))
                (copyResponse Examples.working Examples.record1) in
  confirmed s2 (ResponseOf (js "1")) = true
  ∧ confirmed (run s2 (runTimer ResetCopied)) (ResponseOf (js "1")) = false.
Proof.
  pose proof (copy_timer_clears_any Examples.working Examples.browsing
                (js "Meet on June 1") (js "Summary")
                (TranscriptOf (js "1")) (ResponseOf (js "1"))
                eq_refl eq_refl) as (_ & Hshown & Hcleared).
  split; [exact Hshown|exact (Hcleared _)].
Defined.

End HistoryMore.

(** ** The sign-up screen *)

Section SignupScreen.
Import JS Signup.
#[local] Arguments js : simpl never.

(** What is done between [setIsLoading(true)] and [setIsLoading(false)]. *)
Lemma handleSignup_trace (w : World) (s : State) :
  handleSignup w s
  = ([PreventDefault; SetError []; SetSuccess []; SetIsLoading true]
     ++ (if blank (email s) || blank (password s) || blank (confirmPassword s)
         then [SetError (js "All fields are required")]
         else if negb (bool_decide (password s = confirmPassword s))
         then [SetError (js "Passwords do not match")]
         else if bool_decide (length (password s) < 6)
         then [SetError (js "Password must be at least 6 characters")]
         else SignUp (email s) (password s)
              :: match signUp w (email s) (password s) with
                 | Normal _ =>
                     [SetSuccess (js "Account created! You can now sign in.");
                      SetEmail []; SetPassword []; SetConfirmPassword [];
                      SetTimeout SwitchToLogin 2000]
                 | Abrupt err => [SetError (messageOr err (js "Signup failed"))]
                 end)
     ++ [SetIsLoading false],
     Normal tt).
Proof.
  unfold handleSignup. rewrite !truthy_trim, !negb_involutive.
  destruct (blank (email s) || blank (password s)
            || blank (confirmPassword s)); [done|].
  destruct (negb (bool_decide (password s = confirmPassword s))); [done|].
  destruct (bool_decide (length (password s) < 6)); [done|].
  cbn. by destruct (signUp w (email s) (password s)) as [[]|err].
Qed.

Lemma valid_checks (s : State) :
  valid s = true
  ↔ (blank (email s) || blank (password s) || blank (confirmPassword s)) = false
    ∧ negb (bool_decide (password s = confirmPassword s)) = false
    ∧ bool_decide (length (password s) < 6) = false.
Proof.
  unfold valid.
  rewrite !andb_true_iff, !orb_false_iff, !negb_true_iff, negb_false_iff.
  rewrite !bool_decide_eq_true, bool_decide_eq_false. split.
  - intros ((((? & ?) & ?) & ?) & ?). repeat split; try done. lia.
  - intros (((? & ?) & ?) & ? & ?). repeat split; try done. lia.
Qed.

Lemma handleSignup_signUps (w : World) (s : State) :
  signUps (handleSignup w s)
  = (if valid s then [(email s, password s)] else []).
Proof.
  unfold signUps. rewrite handleSignup_trace.
  pose proof (valid_checks s) as Hvalid.
  destruct (blank (email s) || blank (password s)
            || blank (confirmPassword s)) eqn:Hblank.
  { destruct (valid s); [by destruct Hvalid as [[? _] _]|]. by cbn. }
  destruct (negb (bool_decide (password s = confirmPassword s))) eqn:Hsame.
  { destruct (valid s); [by destruct Hvalid as [(_ & ? & _) _]|]. by cbn. }
  destruct (bool_decide (length (password s) < 6)) eqn:Hshort.
  { destruct (valid s); [by destruct Hvalid as [(_ & _ & ?) _]|]. by cbn. }
  destruct (valid s) eqn:Hv.
  - cbn. by destruct (signUp w _ _).
  - destruct Hvalid as [_ Hvalid]. by discriminate Hvalid.
Qed.

(** X19. [signUp] is called exactly when no field is blank, the two
    passwords are the same string and the password has at least six code
    units; it is then called once, with the e-mail address and the
    password as typed (not trimmed).  Otherwise the form is left as typed
    and one message says why, the checks being made in this order: "All
    fields are required", "Passwords do not match", "Password must be at
    least 6 characters". *)
Theorem signup_validation (w : World) (s : State) :
  let h := handleSignup w s in
  signUps h = (if valid s then [(email s, password s)] else [])
  ∧ (valid s = false →
     email (run s h) = email s
     ∧ password (run s h) = password s
     ∧ confirmPassword (run s h) = confirmPassword s
     ∧ success (run s h) = []
     ∧ timers h = []
     ∧ error (run s h)
       = if blank (email s) || blank (password s)
            || blank (confirmPassword s)
         then js "All fields are required"
         else if negb (bool_decide (password s = confirmPassword s))
         then js "Passwords do not match"
         else js "Password must be at least 6 characters").
Proof.
  cbv zeta. split; [apply handleSignup_signUps|].
  unfold timers, run. rewrite handleSignup_trace.
  pose proof (valid_checks s) as Hvalid.
  destruct (blank (email s) || blank (password s)
            || blank (confirmPassword s)) eqn:Hblank; [by cbn|].
  destruct (negb (bool_decide (password s = confirmPassword s))) eqn:Hsame;
    [by cbn|].
  destruct (bool_decide (length (password s) < 6)) eqn:Hshort; [by cbn|].
  intros Hv. destruct Hvalid as [_ Hvalid]. rewrite Hvalid in Hv; done.
Qed.

Lemma signup_validation_witness :
  let s := Examples.applicant (js "abc") (js "abd") in
  signUps (handleSignup Examples.accepting s) = []
  ∧ error (run s (handleSignup Examples.accepting s))
    = js "Passwords do not match".
Proof.
  pose proof (signup_validation Examples.accepting
                (Examples.applicant (js "abc") (js "abd")))
    as [Hcalls Hleft].
  split; [exact Hcalls|].
  exact (proj2 (proj2 (proj2 (proj2 (proj2 (Hleft eq_refl)))))).
Defined.

(** X20. When the checks pass and [signUp] resolves, the success message
    is shown, no error is, the three fields are emptied and one timer of
    2000 ms is started whose callback switches to the login screen.  When
    [signUp] rejects, the fields stay as typed, no success message is
    shown, no timer is started and the error message is the error's
    message, or "Signup failed" when the error is no [Error]. *)
Theorem signup_outcome (w : World) (s : State) :
  valid s = true →
  let h := handleSignup w s in
  match signUp w (email s) (password s) with
  | Normal _ =>
      success (run s h) = js "Account created! You can now sign in."
      ∧ error (run s h) = []
      ∧ email (run s h) = []
      ∧ password (run s h) = []
      ∧ confirmPassword (run s h) = []
      ∧ timers h = [(SwitchToLogin, 2000%N)]
      ∧ trace (runTimer SwitchToLogin) = [OnSwitchToLogin]
  | Abrupt err =>
      success (run s h) = []
      ∧ error (run s h) = messageOr err (js "Signup failed")
      ∧ email (run s h) = email s
      ∧ password (run s h) = password s
      ∧ confirmPassword (run s h) = confirmPassword s
      ∧ timers h = []
  end.
Proof.
  intros (Hblank & Hsame & Hshort)%valid_checks. cbv zeta.
  unfold timers, run. rewrite handleSignup_trace, Hblank, Hsame, Hshort.
  by destruct (signUp w (email s) (password s)) as [[]|err].
Qed.

Lemma signup_outcome_witness :
  let s := Examples.applicant (js "secret") (js "secret") in
  error (run s (handleSignup Examples.refusing s))
  = js "User already registered"
  ∧ password (run s (handleSignup Examples.refusing s)) = js "secret".
Proof.
  pose proof (signup_outcome Examples.refusing
                (Examples.applicant (js "secret") (js "secret")) eq_refl)
    as (_ & Herror & _ & Hpassword & _).
  split; [exact Herror|exact Hpassword].
Defined.

(** X21. Whatever is typed and whatever [signUp] does, the submit handler
    never lets an exception escape, ends with the loading flag off (so
    the submit button is enabled again, also after a check has failed),
    leaves the two show-password switches alone, calls [signUp] at most
    once, and never leaves both an error and a success message: the
    messages of an earlier attempt are cleared first. *)
Theorem signup_always (w : World) (s : State) :
  let h := handleSignup w s in
  let s' := run s h in
  completion h = Normal tt
  ∧ isLoading s' = false
  ∧ submitDisabled (render s') = false
  ∧ showPassword s' = showPassword s
  ∧ showConfirmPassword s' = showConfirmPassword s
  ∧ length (signUps h) ≤ 1
  ∧ (error s' = [] ∨ success s' = []).
Proof.
  cbv zeta. unfold signUps, run, completion. rewrite handleSignup_trace.
  destruct (blank (email s) || blank (password s)
            || blank (confirmPassword s)).
  { cbn. repeat split; try done; try lia. by right. }
  destruct (negb (bool_decide (password s = confirmPassword s))).
  { cbn. repeat split; try done; try lia. by right. }
  destruct (bool_decide (length (password s) < 6)).
  { cbn. repeat split; try done; try lia. by right. }
  destruct (signUp w (email s) (password s)) as [[]|err]; cbn;
    repeat split; try done; try lia; [by left|by right].
Qed.

(** X22. The length check counts the password as typed: a password of six
    spaces is refused as a blank field, while one whose six code units
    include leading or trailing spaces is accepted, and the confirmation
    must match it space for space. *)
Theorem signup_password_spaces (w : World) (s : State) (core : jsstring) :
  blank (email s) = false →
  blank core = false →
  password s = js " " ++ core ++ js " " →
  confirmPassword s = password s →
  4 ≤ length core →
  signUps (handleSignup w s) = [(email s, password s)]
  ∧ ∀ u : State,
      password u = js "      " →
      error (run u (handleSignup w u)) = js "All fields are required".
Proof.
  intros Hemail Hcore Hpw Hconfirm Hlen.
  assert (blank (password s) = false) as Hnb.
  { rewrite Hpw. unfold blank in *. rewrite !forallb_app, Hcore.
    by rewrite andb_false_r. }
  split.
  - rewrite handleSignup_signUps.
    assert (valid s = true) as ->; [|done].
    unfold valid. rewrite Hconfirm, Hemail, Hnb. cbn.
    rewrite bool_decide_true by done.
    apply bool_decide_eq_true. rewrite Hpw, !length_app.
    change (length (js " ")) with 1. lia.
  - intros u Hu. unfold run. rewrite handleSignup_trace, Hu. cbn.
    by rewrite orb_true_r.
Qed.

Lemma signup_password_spaces_witness :
  let s := Examples.applicant (js " abcd ") (js " abcd ") in
  signUps (handleSignup Examples.accepting s)
  = [(js "ann@example.com", js " abcd ")].
Proof.
  exact (proj1 (signup_password_spaces Examples.accepting
                  (Examples.applicant (js " abcd ") (js " abcd "))
                  (js "abcd") eq_refl eq_refl eq_refl eq_refl
                  ltac:(vm_compute; lia))).
Defined.

End SignupScreen.
